(** * simple-request: a shallow embedding of [src/request.ts] and [src/options.ts]

    The client builds a request descriptor from loosely typed options
    ([sanitizeOpts]), opens a transport request (directly or through a
    CONNECT proxy), encodes the body into the returned connection and, on the
    response side, chases redirects by re-entering [request.get].

    Conventions of the embedding.
    - A JavaScript string is a [string] whose characters are UTF-16 code units
      below 256 (one [ascii] per code unit); [String.length] is [.length].
    - A JavaScript number is a rational, an infinity or NaN ([number]).
    - An optional property is a [prop]: the key is missing, holds [undefined],
      or holds a value; object spread is [spread].
    - Synchronous code runs in a writer/exception monad [M] whose log lists the
      calls made on the transport and on the connection; the response side is
      driven by a script of transport signals. *)

From Stdlib Require Import ZArith QArith Qround Lia.
From Stdlib.Strings Require Import Ascii String Byte.
From stdpp Require Import base option strings list gmap pretty.

Set Warnings "-register-all".
Close Scope Q_scope.
Open Scope string_scope.
Open Scope list_scope.

(** ** JavaScript strings *)

Module JsString.

(** Number of bytes one code unit takes in UTF-8 (code units below 256). *)
Definition utf8_width (c : ascii) : nat :=
  if Nat.ltb (nat_of_ascii c) 128 then 1 else 2.

(** [Buffer.byteLength(s)]: the length of the UTF-8 encoding, which is what
    [conn.end(s)] puts on the wire. *)
Fixpoint byteLength (s : string) : nat :=
  match s with
  | EmptyString => 0
  | String c r => utf8_width c + byteLength r
  end.

Definition utf8_unit (c : ascii) : list byte :=
  let n := N_of_ascii c in
  if N.ltb n 128 then [byte_of_ascii c]
  else [byte_of_ascii (ascii_of_N (192 + N.div n 64));
        byte_of_ascii (ascii_of_N (128 + N.modulo n 64))].

(** [Buffer.from(s)]: the UTF-8 bytes of [s]. *)
Fixpoint utf8 (s : string) : list byte :=
  match s with
  | EmptyString => []
  | String c r => utf8_unit c ++ utf8 r
  end.

(** [s.startsWith(p)] *)
Fixpoint startsWith (p s : string) : bool :=
  match p, s with
  | EmptyString, _ => true
  | String a p', String b s' => if Ascii.eqb a b then startsWith p' s' else false
  | String _ _, EmptyString => false
  end.

Definition in_range (lo hi n : nat) : bool := Nat.leb lo n && Nat.leb n hi.

(** Case mapping of one code unit.  The three Latin-1 code units whose upper
    case lies outside Latin-1 (U+00B5, U+00DF, U+00FF) are left unchanged. *)
Definition lower_unit (c : ascii) : ascii :=
  let n := nat_of_ascii c in
  if in_range 65 90 n || (in_range 192 222 n && negb (Nat.eqb n 215))
  then ascii_of_nat (n + 32) else c.

Definition upper_unit (c : ascii) : ascii :=
  let n := nat_of_ascii c in
  if in_range 97 122 n || (in_range 224 254 n && negb (Nat.eqb n 247))
  then ascii_of_nat (n - 32) else c.

Fixpoint map_units (f : ascii -> ascii) (s : string) : string :=
  match s with
  | EmptyString => EmptyString
  | String c r => String (f c) (map_units f r)
  end.

Definition toLowerCase : string -> string := map_units lower_unit.
Definition toUpperCase : string -> string := map_units upper_unit.

(** Truthiness of a string: only the empty string is falsy. *)
Definition truthy (s : string) : bool :=
  match s with EmptyString => false | _ => true end.

End JsString.

(** ** [Buffer.prototype.toString('base64')] *)

Module Base64.

Definition alphabet : string :=
  "ABCDEFGHIJKLMNOPQRSTUVWXYZabcdefghijklmnopqrstuvwxyz0123456789+/".

Definition digit (n : N) : ascii :=
  match String.get (N.to_nat n) alphabet with
  | Some c => c
  | None => "="%char
  end.

Definition pad : ascii := "="%char.

Fixpoint encodeN (bs : list N) : string :=
  match bs with
  | [] => EmptyString
  | [a] =>
      String (digit (N.div a 4))
        (String (digit (N.modulo a 4 * 16)) (String pad (String pad EmptyString)))
  | [a; b] =>
      String (digit (N.div a 4))
        (String (digit (N.modulo a 4 * 16 + N.div b 16))
           (String (digit (N.modulo b 16 * 4)) (String pad EmptyString)))
  | a :: b :: c :: rest =>
      String (digit (N.div a 4))
        (String (digit (N.modulo a 4 * 16 + N.div b 16))
           (String (digit (N.modulo b 16 * 4 + N.div c 64))
              (String (digit (N.modulo c 64)) (encodeN rest))))
  end.

Definition encode (bs : list byte) : string := encodeN (List.map Byte.to_N bs).

End Base64.

(** ** JavaScript numbers *)

Inductive number :=
| Num (q : Q)
| Infinity
| NegInfinity
| NaN.

Module Number.

Definition of_Z (z : Z) : number := Num (inject_Z z).
Definition of_nat (n : nat) : number := of_Z (Z.of_nat n).

(** [Math.floor] *)
Definition floor (n : number) : number :=
  match n with
  | Num q => of_Z (Qfloor q)
  | other => other
  end.

(** [Math.max(n, 0)] *)
Definition max0 (n : number) : number :=
  match n with
  | Num q => if Qle_bool q 0 then of_Z 0 else Num q
  | Infinity => Infinity
  | NegInfinity => of_Z 0
  | NaN => NaN
  end.

(** [n > 0] *)
Definition gt0 (n : number) : bool :=
  match n with
  | Num q => negb (Qle_bool q 0)
  | Infinity => true
  | NegInfinity => false
  | NaN => false
  end.

(** [n - 1] *)
Definition pred (n : number) : number :=
  match n with
  | Num q => Num (q - 1)%Q
  | other => other
  end.

(** Truthiness: zero and NaN are falsy. *)
Definition truthy (n : number) : bool :=
  match n with
  | Num q => negb (Qeq_bool q 0)
  | NaN => false
  | _ => true
  end.

End Number.

(** ** WHATWG URL objects (Node's [url.URL]) *)

Module Url.

Record t := mk {
  protocol : string;  (* with the trailing colon, as in 'http:' *)
  hostname : string;
  port : string;      (* empty when it is the default port of the scheme *)
  pathname : string;
  search : string     (* empty, or starting with '?' *)
}.

(** [url.host]: the host name, followed by [:port] when a port is kept. *)
Definition host (u : t) : string :=
  if JsString.truthy (port u) then hostname u +:+ ":" +:+ port u else hostname u.

Definition special (p : string) : bool :=
  if decide (p = "http:" \/ p = "https:" \/ p = "ws:" \/ p = "wss:" \/ p = "ftp:")
  then true else false.

(** [url.origin] *)
Definition origin (u : t) : string :=
  if special (protocol u) then protocol u +:+ "//" +:+ host u else "null".

(** [url.href] *)
Definition href (u : t) : string :=
  protocol u +:+ "//" +:+ host u +:+ pathname u +:+ search u.

(** [url.pathname = p] and [url.search = s].  The normalisation the setters
    apply (the leading [/] and the dot segments of a pathname,
    percent-encoding) is not modelled: the pathname is kept as given; of the
    search, only the leading [?] of a non-empty value is. *)
Definition set_pathname (p : string) (u : t) : t :=
  mk (protocol u) (hostname u) (port u) p (search u).

Definition set_search (s : string) (u : t) : t :=
  mk (protocol u) (hostname u) (port u) (pathname u)
     (if JsString.truthy s
      then (if JsString.startsWith "?" s then s else "?" +:+ s)
      else "").

(** *** A parser for plain absolute URLs

    [parse] reads [scheme://host[:port][/path][?query]]; it is the parser the
    examples run with.  Everything proved in general is proved for an
    arbitrary parser. *)

Fixpoint break (stop : ascii -> bool) (s : string) : string * string :=
  match s with
  | EmptyString => (EmptyString, EmptyString)
  | String c r =>
      if stop c then (EmptyString, s)
      else let '(a, b) := break stop r in (String c a, b)
  end.

Definition is_colon (c : ascii) : bool := Ascii.eqb c ":".
Definition is_path_start (c : ascii) : bool := Ascii.eqb c "/" || Ascii.eqb c "?".
Definition is_question (c : ascii) : bool := Ascii.eqb c "?".

Definition is_letter (c : ascii) : bool :=
  let n := nat_of_ascii c in JsString.in_range 65 90 n || JsString.in_range 97 122 n.

Definition is_digit (c : ascii) : bool :=
  JsString.in_range 48 57 (nat_of_ascii c).

Definition is_host_unit (c : ascii) : bool :=
  is_letter c || is_digit c || Ascii.eqb c "." || Ascii.eqb c "-".

Fixpoint all_units (p : ascii -> bool) (s : string) : bool :=
  match s with
  | EmptyString => true
  | String c r => p c && all_units p r
  end.

Definition default_port (proto : string) : string :=
  if decide (proto = "http:") then "80"
  else if decide (proto = "https:") then "443"
  else "".

Definition parse (s : string) : option t :=
  let '(scheme, rest) := break is_colon s in
  if negb (JsString.truthy scheme && all_units is_letter scheme) then None
  else if negb (JsString.startsWith "://" rest) then None
  else
    let proto := JsString.toLowerCase scheme +:+ ":" in
    let '(authority, tail) := break is_path_start (String.substring 3 (String.length rest) rest) in
    let '(h, p) := break is_colon authority in
    let p := String.substring 1 (String.length p) p in
    if negb (JsString.truthy h && all_units is_host_unit h && all_units is_digit p) then None
    else
      let '(path, query) := break is_question tail in
      Some (mk proto (JsString.toLowerCase h)
              (if decide (p = default_port proto) then "" else p)
              (if JsString.truthy path then path else "/")
              (if decide (query = "?") then "" else query)).

End Url.

(** ** Values and optional properties *)

(** Values of type [any] (bodies, forms, query objects, TLS option bags). *)
Inductive value :=
| VNull
| VBool (b : bool)
| VNumber (n : number)
| VString (s : string)
| VBuffer (bytes : list byte)
| VReadable (objectMode : bool)
| VArray (items : list value)
| VObject (fields : list (string * value)).

Module Value.

Definition truthy (v : value) : bool :=
  match v with
  | VNull => false
  | VBool b => b
  | VNumber n => Number.truthy n
  | VString s => JsString.truthy s
  | _ => true
  end.

(** [typeof v === 'string' || v instanceof Buffer] *)
Definition is_string_or_buffer (v : value) : bool :=
  match v with
  | VString _ | VBuffer _ => true
  | _ => false
  end.

(** [v instanceof Readable && v._readableState.objectMode === false] *)
Definition is_byte_stream (v : value) : bool :=
  match v with
  | VReadable objectMode => negb objectMode
  | _ => false
  end.

(** [v.length] of a string or a Buffer. *)
Definition length (v : value) : nat :=
  match v with
  | VString s => String.length s
  | VBuffer bytes => List.length bytes
  | _ => 0
  end.

(** The number of bytes [conn.end(v)] writes for a string or a Buffer. *)
Definition wire_length (v : value) : nat :=
  match v with
  | VString s => JsString.byteLength s
  | VBuffer bytes => List.length bytes
  | _ => 0
  end.

End Value.

(** A property of an object literal: absent, present and [undefined], or
    present with a value. *)
Inductive prop (A : Type) :=
| Missing
| Undefined
| Value (a : A).

Arguments Missing {A}.
Arguments Undefined {A}.
Arguments Value {A} a.

(** Reading a property: a missing key reads as [undefined]. *)
Definition defined {A} (p : prop A) : option A :=
  match p with
  | Value a => Some a
  | _ => None
  end.

(** One key of [{...under, ...over}]. *)
Definition spread1 {A} (under over : prop A) : prop A :=
  match over with
  | Missing => under
  | _ => over
  end.

(** [{...a, ...b}] on plain objects kept as association lists. *)
Definition spread_fields (a b : list (string * value)) : list (string * value) :=
  List.map (fun kv => match List.find (fun kv' => String.eqb (fst kv) (fst kv')) b with
                      | Some kv' => kv'
                      | None => kv
                      end) a
  ++ List.filter (fun kv' => negb (List.existsb (fun kv => String.eqb (fst kv) (fst kv')) a)) b.

(** ** Option types of [options.ts] *)

Inductive header :=
| HOne (s : string)
| HMany (l : list string).

Inductive URI :=
| UriString (s : string)
| UriURL (u : Url.t).

Inductive Agent :=
| AgentObject (id : nat)
| AgentFlag (b : bool).

Record Auth := mkAuth { auth_username : string; auth_password : string }.

(** [tls.ConnectionOptions], a bag of properties.  Of the keys the type
    declares, [host], [port] and [path] are also keys of the CONNECT request
    literal, into which the proxy's bag is spread last: there the bag wins.
    The type declares none of the other keys of the request literals. *)
Definition TlsOptions := list (string * value).

Definition bag_get (key : string) (bag : TlsOptions) : option value :=
  snd <$> List.find (fun kv => String.eqb (fst kv) key) bag.

Module ProxyInput.
Record t := mk {
  uri : URI;
  tls : option TlsOptions;
  username : option string;
  password : option string
}.
End ProxyInput.

Inductive ProxyOption :=
| ProxyUri (u : URI)
| ProxyObject (p : ProxyInput.t).

Module Proxy.
Record t := mk {
  uri : Url.t;
  tls : option TlsOptions;
  username : option string;
  password : option string
}.
End Proxy.

(** [Options]: every key is optional. *)
Module Options.

Record t := mk {
  method : prop string;
  headers : prop (gmap string header);
  uri : prop URI;
  proxy : prop ProxyOption;
  maxRedirects : prop number;
  followAllRedirects : prop bool;
  auth : prop Auth;
  body : prop value;
  form : prop value;
  formData : prop value;
  qs : prop (list (string * value));
  query : prop (list (string * value));
  decompress : prop bool;
  rejectError : prop bool;
  raw : prop bool;
  tls : prop TlsOptions;
  simple : prop bool;
  path : prop string;
  agent : prop Agent
}.

(** [{}] *)
Definition empty : t :=
  mk Missing Missing Missing Missing Missing Missing Missing Missing Missing Missing
     Missing Missing Missing Missing Missing Missing Missing Missing Missing.

(** [{...under, ...over}] *)
Definition spread (under over : t) : t :=
  mk (spread1 (method under) (method over))
     (spread1 (headers under) (headers over))
     (spread1 (uri under) (uri over))
     (spread1 (proxy under) (proxy over))
     (spread1 (maxRedirects under) (maxRedirects over))
     (spread1 (followAllRedirects under) (followAllRedirects over))
     (spread1 (auth under) (auth over))
     (spread1 (body under) (body over))
     (spread1 (form under) (form over))
     (spread1 (formData under) (formData over))
     (spread1 (qs under) (qs over))
     (spread1 (query under) (query over))
     (spread1 (decompress under) (decompress over))
     (spread1 (rejectError under) (rejectError over))
     (spread1 (raw under) (raw over))
     (spread1 (tls under) (tls over))
     (spread1 (simple under) (simple over))
     (spread1 (path under) (path over))
     (spread1 (agent under) (agent over)).

(** Object literals with one key, to be combined with [spread]. *)
Definition of_method (m : string) : t :=
  mk (Value m) Missing Missing Missing Missing Missing Missing Missing Missing Missing
     Missing Missing Missing Missing Missing Missing Missing Missing Missing.
Definition of_headers (h : gmap string header) : t :=
  mk Missing (Value h) Missing Missing Missing Missing Missing Missing Missing Missing
     Missing Missing Missing Missing Missing Missing Missing Missing Missing.
Definition of_uri (u : URI) : t :=
  mk Missing Missing (Value u) Missing Missing Missing Missing Missing Missing Missing
     Missing Missing Missing Missing Missing Missing Missing Missing Missing.
Definition of_proxy (p : ProxyOption) : t :=
  mk Missing Missing Missing (Value p) Missing Missing Missing Missing Missing Missing
     Missing Missing Missing Missing Missing Missing Missing Missing Missing.
Definition of_maxRedirects (n : number) : t :=
  mk Missing Missing Missing Missing (Value n) Missing Missing Missing Missing Missing
     Missing Missing Missing Missing Missing Missing Missing Missing Missing.
Definition of_auth (a : Auth) : t :=
  mk Missing Missing Missing Missing Missing Missing (Value a) Missing Missing Missing
     Missing Missing Missing Missing Missing Missing Missing Missing Missing.
Definition of_body (v : value) : t :=
  mk Missing Missing Missing Missing Missing Missing Missing (Value v) Missing Missing
     Missing Missing Missing Missing Missing Missing Missing Missing Missing.
Definition of_form (v : value) : t :=
  mk Missing Missing Missing Missing Missing Missing Missing Missing (Value v) Missing
     Missing Missing Missing Missing Missing Missing Missing Missing Missing.
Definition of_formData (v : value) : t :=
  mk Missing Missing Missing Missing Missing Missing Missing Missing Missing (Value v)
     Missing Missing Missing Missing Missing Missing Missing Missing Missing.
Definition of_agent (a : Agent) : t :=
  mk Missing Missing Missing Missing Missing Missing Missing Missing Missing Missing
     Missing Missing Missing Missing Missing Missing Missing Missing (Value a).

End Options.

(** [RequestOptions]: the descriptor [sanitizeOpts] returns. *)
Module RequestOptions.

Record t := mk {
  method : string;
  headers : gmap string header;
  uri : Url.t;
  proxy : option Proxy.t;
  maxRedirects : number;
  auth : option Auth;
  body : option value;
  form : option value;
  formData : option value;
  qs : option (list (string * value));
  query : option (list (string * value));
  decompress : bool;
  rejectError : bool;
  raw : bool;
  tls : option TlsOptions;
  simple : bool;
  path : option string;
  agent : option Agent
}.

(** [options.uri.pathname = p] and [options.uri.search = s] *)
Definition map_uri (f : Url.t -> Url.t) (o : t) : t :=
  mk (method o) (headers o) (f (uri o)) (proxy o) (maxRedirects o) (auth o) (body o)
     (form o) (formData o) (qs o) (query o) (decompress o) (rejectError o) (raw o)
     (tls o) (simple o) (path o) (agent o).

End RequestOptions.

(** ** Collaborators outside the two source files

    Node built-ins and npm libraries the code calls.  They are pure functions
    of their arguments; the development is parametric in them. *)
Record Externals := {
  new_URL : string -> option Url.t;           (* [None]: throws a TypeError *)
  defaultUserAgent : string;                  (* built from package and process data *)
  JSON_stringify : value -> option string;    (* [None]: returns undefined *)
  qs_stringify : value -> string;
  querystring_stringify : value -> string;
  searchParams : Url.t -> list (string * value); (* Object.fromEntries(uri.searchParams) *)
  Object_entries : value -> list (string * value);
  getBoundary : string                        (* the boundary the FormData instance drew *)
}.

(** ** Effects *)

Inductive error :=
| UriMustBeDefined      (* Error('begger: uri must be defined') *)
| ProtocolNotSupported  (* Error('protocol not supported') *)
| Unreachable           (* Error('unreachable') *)
| InvalidURL            (* TypeError of [new URL] *)
| TypeError.            (* property read on undefined *)

(** The options object handed to [http.request] / [https.request]. *)
Record RequestArgs := {
  req_method : string;
  req_headers : gmap string header;
  req_auth : option string;
  req_agent : option Agent;
  req_tls : TlsOptions  (* keys spread from [options.tls] *)
}.

(** The options object of the CONNECT request sent to the proxy. *)
Record ConnectArgs := {
  con_host : value;
  con_port : value;
  con_headers : gmap string header;
  con_method : string;
  con_path : value;
  con_agent : option Agent;
  con_tls : TlsOptions  (* keys spread from [options.proxy.tls] *)
}.

(** The options object of the target request issued through the tunnel. *)
Record TunnelArgs := {
  tun_method : string;
  tun_headers : gmap string header;
  tun_auth : option string;
  tun_secure : option (TlsOptions * string)
    (* [createConnection]: the raw socket, or tls.connect with these options
       and this servername over it *)
}.

(** Arguments of [conn.setHeader]. *)
Inductive header_value :=
| HNumber (n : nat)
| HString (s : string).

Inductive source :=
| BodyStream (v : value)                         (* options.body.pipe(conn) *)
| FormStream (parts : list (string * value * string)). (* form.pipe(conn): key, value, filename *)

(** Calls made on the transport and on the connection, in program order.
    The calls themselves are taken to return: what Node's [http.request]
    rejects on its own (an invalid method token, say) is outside the model. *)
Inductive event :=
| HttpRequest (secure : bool) (uri : Url.t) (args : RequestArgs)
| HttpConnect (secure : bool) (args : ConnectArgs)
| TunnelRequest (secure : bool) (uri : Url.t) (args : TunnelArgs)
| ConnSetHeader (name : string) (v : header_value)
| ConnEnd (chunk : option value)
| ConnPipe (src : source)
| RespDrain.

(** Synchronous code: a log of the calls made so far, and a result or the
    exception that cut the code short. *)
Definition M (A : Type) : Type := list event * (error + A).

Definition ret {A} (a : A) : M A := ([], inr a).
Definition throw {A} (e : error) : M A := ([], inl e).
Definition tell (ev : event) : M unit := ([ev], inr tt).
Definition bind {A B} (m : M A) (f : A -> M B) : M B :=
  match m with
  | (log, inl e) => (log, inl e)
  | (log, inr a) => let '(log', r) := f a in (log ++ log', r)
  end.

Notation "x <- m ;; k" := (bind m (fun x => k))
  (at level 60, m at next level, right associativity).
Notation "m ;;; k" := (bind m (fun _ => k))
  (at level 60, right associativity).

Inductive transport := Http | Https.

Definition secure (t : transport) : bool :=
  match t with Http => false | Https => true end.

Definition httpLib (protocol : string) : M transport :=
  if decide (protocol = "http:") then ret Http
  else if decide (protocol = "https:") then ret Https
  else throw ProtocolNotSupported.

(** The connection object returned to the caller: which connector built it
    and for which descriptor. *)
Inductive connector := Direct | Proxied.

Record Connection := { via : connector; descriptor : RequestOptions.t }.

(** First argument of the entry points: a URI value ([isUri]: a string or a
    [URL]), or an options object. *)
Inductive target :=
| Positional (uri : URI)
| Bag (o : Options.t).

(** What the transport delivers for a request: response headers, or an
    error. *)
Record Reply := { status : option Z; reply_headers : gmap string string }.

Inductive signal :=
| Answer (r : Reply)
| Failure (err : string).

(** [http.IncomingMessage] with the [redirects] property the client adds. *)
Record IncomingMessage := {
  statusCode : option Z;
  resp_headers : gmap string string;
  redirects : option (list string)
}.

Definition incoming (r : Reply) : IncomingMessage :=
  {| statusCode := status r; resp_headers := reply_headers r; redirects := None |}.

(** What a connection ends up emitting. *)
Inductive outcome :=
| Response (resp : IncomingMessage)  (* conn.emit('response', resp) *)
| Error (err : string)               (* conn.emit('error', err) *)
| Pending                            (* nothing emitted yet *)
| Uncaught (e : error).              (* exception thrown inside a listener *)

(** ** The client *)

Section Client.

Variable ext : Externals.

(** *** options.ts *)

Definition getMaxRedirects (opts : Options.t) : number :=
  match defined (Options.maxRedirects opts) with
  | Some n => Number.max0 (Number.floor n)
  | None =>
      match defined (Options.followAllRedirects opts) with
      | Some true => Infinity
      | _ => Number.of_Z 0
      end
  end.

Definition uriToURL (uri : URI) : M Url.t :=
  match uri with
  | UriString s =>
      match new_URL ext s with
      | Some u => ret u
      | None => throw InvalidURL
      end
  | UriURL u => ret u
  end.

Definition sanitizeProxy (p : prop ProxyOption) : M (option Proxy.t) :=
  match defined p with
  | None => ret None
  | Some (ProxyUri (UriString s)) =>
      u <- uriToURL (UriString s);;
      ret (Some (Proxy.mk u None None None))
  | Some (ProxyUri (UriURL u)) => ret (Some (Proxy.mk u None None None))
  | Some (ProxyObject p) =>
      u <- uriToURL (ProxyInput.uri p);;
      ret (Some (Proxy.mk u (ProxyInput.tls p) (ProxyInput.username p) (ProxyInput.password p)))
  end.

(** The returned literal has no [agent] key: the property reads as
    [undefined] on every descriptor. *)
Definition sanitizeOpts (arg : Options.t + string) : M RequestOptions.t :=
  let opts := match arg with
              | inr s => Options.of_uri (UriString s)
              | inl o => o
              end in
  match defined (Options.uri opts) with
  | None => throw UriMustBeDefined
  | Some u =>
      uri <- uriToURL u;;
      proxy <- sanitizeProxy (Options.proxy opts);;
      ret {| RequestOptions.method :=
               match defined (Options.method opts) with
               | Some m => if JsString.truthy m then m else "GET"
               | None => "GET"
               end;
             RequestOptions.headers := default ∅ (defined (Options.headers opts));
             RequestOptions.uri := uri;
             RequestOptions.proxy := proxy;
             RequestOptions.maxRedirects := getMaxRedirects opts;
             RequestOptions.auth := defined (Options.auth opts);
             RequestOptions.body := defined (Options.body opts);
             RequestOptions.form := defined (Options.form opts);
             RequestOptions.formData := defined (Options.formData opts);
             RequestOptions.qs := defined (Options.qs opts);
             RequestOptions.query := defined (Options.query opts);
             RequestOptions.decompress :=
               match defined (Options.decompress opts) with Some false => false | _ => true end;
             RequestOptions.rejectError :=
               match defined (Options.rejectError opts) with Some true => true | _ => false end;
             RequestOptions.raw :=
               match defined (Options.raw opts) with Some true => true | _ => false end;
             RequestOptions.tls := defined (Options.tls opts);
             RequestOptions.simple :=
               match defined (Options.simple opts) with Some true => true | _ => false end;
             RequestOptions.path := defined (Options.path opts);
             RequestOptions.agent := None |}
  end.

(** *** request.ts: the connectors *)

(** [options.method && options.method.toUpperCase()] *)
Definition upper_method (options : RequestOptions.t) : string :=
  let m := RequestOptions.method options in
  if JsString.truthy m then JsString.toUpperCase m else m.

(** [{ 'User-Agent': defaultUserAgent, ...options.headers }] *)
Definition target_headers (options : RequestOptions.t) : gmap string header :=
  RequestOptions.headers options ∪ {[ "User-Agent" := HOne (defaultUserAgent ext) ]}.

(** [options.auth && options.auth.username + ':' + options.auth.password] *)
Definition auth_string (options : RequestOptions.t) : option string :=
  match RequestOptions.auth options with
  | Some a => Some (auth_username a +:+ ":" +:+ auth_password a)
  | None => None
  end.

(** [username && password && 'Basic ' + base64(username:password)]; [None]
    stands for a falsy result. *)
Definition proxyAuth (proxy : Proxy.t) : option string :=
  match Proxy.username proxy, Proxy.password proxy with
  | Some u, Some p =>
      if JsString.truthy u && JsString.truthy p
      then Some ("Basic " +:+ Base64.encode (JsString.utf8 (u +:+ ":" +:+ p)))
      else None
  | _, _ => None
  end.

Definition header_truthy (h : header) : bool :=
  match h with
  | HOne s => JsString.truthy s
  | HMany _ => true
  end.

(** Headers of the CONNECT request. *)
Definition connect_headers (options : RequestOptions.t) (proxy : Proxy.t)
  : gmap string header :=
  let base : gmap string header :=
    <[ "User-Agent" :=
         match RequestOptions.headers options !! "user-agent" with
         | Some h => if header_truthy h then h else HOne (defaultUserAgent ext)
         | None => HOne (defaultUserAgent ext)
         end ]>
      {[ "host" := HOne (Url.host (RequestOptions.uri options)) ]} in
  match proxyAuth proxy with
  | Some a => <[ "Proxy-Authorization" := HOne a ]> base
  | None => base
  end.

(** Synchronous part of [createProxiedConnection]: up to the [.end()] of the
    CONNECT request. *)
Definition createProxiedConnection (options : RequestOptions.t) : M Connection :=
  match RequestOptions.proxy options with
  | None => throw Unreachable
  | Some proxy =>
      proxyHttpLib <- httpLib (Url.protocol (Proxy.uri proxy));;
      targetHttpLib <- httpLib (Url.protocol (RequestOptions.uri options));;
      let proxyPath :=
        Url.hostname (RequestOptions.uri options) +:+ ":" +:+
        (if JsString.truthy (Url.port (RequestOptions.uri options))
         then Url.port (RequestOptions.uri options)
         else match targetHttpLib with Http => "80" | Https => "443" end) in
      let bag := default [] (Proxy.tls proxy) in
      tell (HttpConnect (secure proxyHttpLib)
              {| con_host := default (VString (Url.hostname (Proxy.uri proxy))) (bag_get "host" bag);
                 con_port := default (VString (Url.port (Proxy.uri proxy))) (bag_get "port" bag);
                 con_headers := connect_headers options proxy;
                 con_method := "CONNECT";
                 con_path := default (VString proxyPath) (bag_get "path" bag);
                 con_agent := Some (AgentFlag false);
                 con_tls := bag |});;;
      ret {| via := Proxied; descriptor := options |}
  end.

(** Synchronous part of [createConnection]: the transport request. *)
Definition createConnection (options : RequestOptions.t) : M Connection :=
  lib <- httpLib (Url.protocol (RequestOptions.uri options));;
  tell (HttpRequest (secure lib) (RequestOptions.uri options)
          {| req_method := upper_method options;
             req_headers := target_headers options;
             req_auth := auth_string options;
             req_agent := RequestOptions.agent options;
             req_tls := default [] (RequestOptions.tls options) |});;;
  ret {| via := Direct; descriptor := options |}.

(** *** request.ts: the body written into the connection (lines 166-190) *)

Definition is_get (options : RequestOptions.t) : bool :=
  negb (JsString.truthy (RequestOptions.method options))
  || String.eqb (JsString.toLowerCase (RequestOptions.method options)) "get".

Definition option_truthy (v : option value) : bool :=
  match v with
  | Some x => Value.truthy x
  | None => false
  end.

Definition writeBody (options : RequestOptions.t) : M unit :=
  if is_get options then tell (ConnEnd None)
  else
    match RequestOptions.body options with
    | Some body =>
        if Value.is_string_or_buffer body then
          tell (ConnSetHeader "Content-Length" (HNumber (Value.length body)));;;
          tell (ConnEnd (Some body))
        else if Value.is_byte_stream body then
          tell (ConnPipe (BodyStream body))
        else
          tell (ConnSetHeader "Content-Type" (HString "application/json; charset=utf-8"));;;
          match JSON_stringify ext body with
          | None => throw TypeError
          | Some payload =>
              tell (ConnSetHeader "Content-Length" (HNumber (String.length payload)));;;
              tell (ConnEnd (Some (VString payload)))
          end
    | None =>
        if option_truthy (RequestOptions.form options) then
          let payload := qs_stringify ext (default VNull (RequestOptions.form options)) in
          tell (ConnSetHeader "Content-Type" (HString "application/x-www-form-urlencoded"));;;
          tell (ConnSetHeader "Content-Length" (HNumber (String.length payload)));;;
          tell (ConnEnd (Some (VString payload)))
        else if option_truthy (RequestOptions.formData options) then
          let form :=
            List.map (fun kv => (fst kv, snd kv, fst kv))
              (Object_entries ext (default VNull (RequestOptions.formData options))) in
          tell (ConnSetHeader "Content-Type"
                  (HString ("multipart/form-data;boundary=" +:+ getBoundary ext)));;;
          tell (ConnPipe (FormStream form))
        else ret tt
    end.

(** *** request.ts: the entry points *)

(** [if (options.path) options.uri.pathname = options.path] (lines 148-150) *)
Definition apply_path (options : RequestOptions.t) : RequestOptions.t :=
  match RequestOptions.path options with
  | Some p =>
      if JsString.truthy p then RequestOptions.map_uri (Url.set_pathname p) options
      else options
  | None => options
  end.

(** The query merged into [options.uri.search] (lines 152-162): [qs] through
    the qs library, else [query] through querystring. *)
Definition apply_query (options : RequestOptions.t) : RequestOptions.t :=
  let current := searchParams ext (RequestOptions.uri options) in
  match RequestOptions.qs options with
  | Some q =>
      RequestOptions.map_uri
        (Url.set_search (qs_stringify ext (VObject (spread_fields current q)))) options
  | None =>
      match RequestOptions.query options with
      | Some q =>
          RequestOptions.map_uri
            (Url.set_search (querystring_stringify ext (VObject (spread_fields current q))))
            options
      | None => options
      end
  end.

(** Synchronous part of [_request]; an omitted [opts] is [Options.empty]. *)
Definition _request (uri : target) (opts : Options.t) : M Connection :=
  options <- sanitizeOpts
               (inl match uri with
                    | Positional u => Options.spread opts (Options.of_uri u)
                    | Bag o => Options.spread opts o
                    end);;
  let options := apply_query (apply_path options) in
  conn <- match RequestOptions.proxy options with
          | Some _ => createProxiedConnection options
          | None => createConnection options
          end;;
  writeBody options;;;
  ret conn.

Definition BaseRequestFunc := target -> Options.t -> M Connection.

Definition wrapWithDefaults (fn : BaseRequestFunc) (defaults : Options.t) : BaseRequestFunc :=
  fun uri opts =>
    match uri with
    | Positional _ => fn uri (Options.spread defaults opts)
    | Bag o => fn (Bag (Options.spread defaults o)) Options.empty
    end.

Definition methods : list string := ["get"; "post"; "put"; "delete"; "head"; "options"].

(** [request.get], [request.post], ... *)
Definition methodRequests (verb : string) : BaseRequestFunc :=
  wrapWithDefaults _request (Options.of_method verb).

(** [request.defaults] *)
Definition request_defaults (opts : Options.t) : BaseRequestFunc :=
  wrapWithDefaults _request opts.

(** *** request.ts: the response side *)

(** [options.maxRedirects > 0 && resp.statusCode && resp.statusCode >= 301 &&
    resp.statusCode <= 303] *)
Definition follows (options : RequestOptions.t) (resp : IncomingMessage) : bool :=
  Number.gt0 (RequestOptions.maxRedirects options)
  && match statusCode resp with
     | Some c => negb (Z.eqb c 0) && Z.leb 301 c && Z.leb c 303
     | None => false
     end.

(** [location && location.startsWith('/') ? origin + location : location || '/'] *)
Definition qualifiedRedirection (origin : string) (location : option string) : string :=
  match location with
  | Some l =>
      if JsString.truthy l && JsString.startsWith "/" l then origin +:+ l
      else if JsString.truthy l then l
      else "/"
  | None => "/"
  end.

(** [nextResp.redirects = [qualifiedRedirection, ...(nextResp.redirects || [])]] *)
Definition prepend (location : string) (nextResp : IncomingMessage) : IncomingMessage :=
  {| statusCode := statusCode nextResp;
     resp_headers := resp_headers nextResp;
     redirects := Some (location :: default [] (redirects nextResp)) |}.

Definition is_https (u : Url.t) : bool := String.eqb (Url.protocol u) "https:".

(** Response side of [createProxiedConnection]: the first signal answers the
    CONNECT request (Node raises 'connect' for it), the next one answers the
    target request sent through the tunnel. *)
Definition tunnelled (options : RequestOptions.t) (script : list signal)
  : list event * outcome :=
  match script with
  | [] => ([], Pending)
  | Failure err :: _ => ([], Error err)
  | Answer _ :: rest =>
      let uri := RequestOptions.uri options in
      let req :=
        TunnelRequest (is_https uri) uri
          {| tun_method := upper_method options;
             tun_headers := target_headers options;
             tun_auth := auth_string options;
             tun_secure :=
               if String.eqb (Url.protocol uri) "http:" then None
               else Some (default [] (RequestOptions.tls options), Url.host uri) |} in
      ([req],
       match rest with
       | [] => Pending
       | Failure err :: _ => Error err
       | Answer r :: _ => Response (incoming r)
       end)
  end.

(** Modelled from the spec: the [Connection] class of [./connection] is not
    among the sources.  By the spec's contract of the wrapper, a value passed
    to [conn.emit('response' | 'error', v)] reaches the listeners registered
    with [conn.on] unchanged.  [listen onResponse emitted] is what
    [conn.on('response', onResponse).on('error', reject)] hands on of what the
    connection emits. *)
Definition listen (onResponse : IncomingMessage -> IncomingMessage) (emitted : outcome)
  : outcome :=
  match emitted with
  | Response nextResp => Response (onResponse nextResp)
  | Error err => Error err
  | Pending => Pending
  | Uncaught e => Uncaught e
  end.

(** Modelled from the spec: [createConnection] registers no 'error' listener
    on the transport request itself; by the spec (4.3, Failure) the wrapper
    surfaces a transport error as an 'error' event of the connection. *)
Definition transport_failure (err : string) : outcome := Error err.

(** [responsePromise options script] is what the promise of [createConnection]
    (lines 106-128), fed into the connection by [responsePromise.then], makes
    it emit when the requests issued from here on are answered, in order, by
    [script]; the log lists the calls made meanwhile.  The requests of a
    redirect chain are issued by [request.get], so the recursion runs on the
    script. *)
Fixpoint responsePromise (options : RequestOptions.t) (script : list signal)
  : list event * outcome :=
  match script with
  | [] => ([], Pending)
  | Failure err :: _ => ([], transport_failure err)
  | Answer r :: rest =>
      let resp := incoming r in
      if follows options resp then
        let location := resp_headers resp !! "location" in
        let target :=
          qualifiedRedirection (Url.origin (RequestOptions.uri options)) location in
        match methodRequests "get" (Positional (UriString target))
                (Options.of_maxRedirects (Number.pred (RequestOptions.maxRedirects options)))
        with
        | (log, inl e) => (RespDrain :: log, Uncaught e)
        | (log, inr conn) =>
            let '(log', next) :=
              match via conn with
              | Direct => responsePromise (descriptor conn) rest
              | Proxied => tunnelled (descriptor conn) rest
              end in
            (RespDrain :: log ++ log', listen (prepend target) next)
        end
      else ([], Response resp)
  end.

(** What a connection emits once its requests are answered by [script]. *)
Definition settle (conn : Connection) (script : list signal) : list event * outcome :=
  match via conn with
  | Direct => responsePromise (descriptor conn) script
  | Proxied => tunnelled (descriptor conn) script
  end.

(** A whole exchange: the synchronous call, then the response side.  A
    synchronous exception is thrown to the caller ([inl]). *)
Definition exchange (call : M Connection) (script : list signal)
  : list event * (error + outcome) :=
  match call with
  | (log, inl e) => (log, inl e)
  | (log, inr conn) => let '(log', out) := settle conn script in (log ++ log', inr out)
  end.

End Client.

(** ** An environment to run the examples in

    The URL parser is [Url.parse]; the serializers cover the plain values the
    examples use (integral numbers, strings without characters to escape in
    query strings).  Nothing proved in general depends on it. *)

Module Sample.

Definition dquote : ascii := "034"%char.
Definition backslash : ascii := "092"%char.

Fixpoint escape (s : string) : string :=
  match s with
  | EmptyString => EmptyString
  | String c r =>
      if Ascii.eqb c dquote || Ascii.eqb c backslash
      then String backslash (String c (escape r))
      else String c (escape r)
  end.

Definition quote (s : string) : string :=
  String dquote (escape s +:+ String dquote EmptyString).

Fixpoint json (v : value) : string :=
  match v with
  | VNull => "null"
  | VBool b => if b then "true" else "false"
  | VNumber (Num q) => pretty (Qfloor q)
  | VNumber _ => "null"
  | VString s => quote s
  | VBuffer bytes =>
      "{" +:+ quote "type" +:+ ":" +:+ quote "Buffer" +:+ "," +:+ quote "data" +:+ ":["
      +:+ String.concat "," (List.map (fun b => pretty (Byte.to_N b)) bytes) +:+ "]}"
  | VReadable _ => "{}"
  | VArray items =>
      "[" +:+ (fix go (l : list value) : string :=
                 match l with
                 | [] => ""
                 | [x] => json x
                 | x :: r => json x +:+ "," +:+ go r
                 end) items +:+ "]"
  | VObject fields =>
      "{" +:+ (fix go (l : list (string * value)) : string :=
                 match l with
                 | [] => ""
                 | [(k, x)] => quote k +:+ ":" +:+ json x
                 | (k, x) :: r => quote k +:+ ":" +:+ json x +:+ "," +:+ go r
                 end) fields +:+ "}"
  end.

Definition scalar (v : value) : string :=
  match v with
  | VString s => s
  | VNumber (Num q) => pretty (Qfloor q)
  | VBool b => if b then "true" else "false"
  | _ => ""
  end.

Definition pairs (v : value) : string :=
  match v with
  | VObject fields =>
      String.concat "&" (List.map (fun kv => fst kv +:+ "=" +:+ scalar (snd kv)) fields)
  | _ => ""
  end.

Definition is_amp (c : ascii) : bool := Ascii.eqb c "&".
Definition is_eq (c : ascii) : bool := Ascii.eqb c "=".

Definition tail (s : string) : string := String.substring 1 (String.length s) s.

Fixpoint split_pairs (fuel : nat) (s : string) : list (string * value) :=
  match fuel with
  | O => []
  | S fuel' =>
      if JsString.truthy s then
        let '(kv, rest) := Url.break is_amp s in
        let '(k, v) := Url.break is_eq kv in
        (k, VString (tail v)) :: split_pairs fuel' (tail rest)
      else []
  end.

Definition params (u : Url.t) : list (string * value) :=
  split_pairs (String.length (Url.search u)) (tail (Url.search u)).

Fixpoint indexed (i : nat) (items : list value) : list (string * value) :=
  match items with
  | [] => []
  | x :: r => (pretty i, x) :: indexed (S i) r
  end.

Definition entries (v : value) : list (string * value) :=
  match v with
  | VObject fields => fields
  | VArray items => indexed 0 items
  | _ => []
  end.

Definition node : Externals :=
  {| new_URL := Url.parse;
     defaultUserAgent := "Beggar/1.0.0 (Node.js v14.0.0; linux x64)";
     JSON_stringify := fun v => Some (json v);
     qs_stringify := pairs;
     querystring_stringify := pairs;
     searchParams := params;
     Object_entries := entries;
     getBoundary := "--------------------------974767299852498929531610" |}.

End Sample.

(** ** Observations on logs and scripts *)

(** URIs of the direct transport requests of a log, in the order issued. *)
Definition requests (log : list event) : list Url.t :=
  omap (fun ev => match ev with HttpRequest _ u _ => Some u | _ => None end) log.

(** Options of the CONNECT requests of a log. *)
Definition connects (log : list event) : list ConnectArgs :=
  omap (fun ev => match ev with HttpConnect _ args => Some args | _ => None end) log.

(** Options of the direct transport requests of a log. *)
Definition request_args (log : list event) : list RequestArgs :=
  omap (fun ev => match ev with HttpRequest _ _ args => Some args | _ => None end) log.

(** Number of superseded responses drained, one per redirect followed. *)
Definition drains (log : list event) : nat :=
  List.length (List.filter (fun ev => match ev with RespDrain => true | _ => false end) log).

(** Number of times the writable side is ended or handed to a pipe. *)
Definition terminations (log : list event) : nat :=
  List.length (List.filter (fun ev => match ev with
                                      | ConnEnd _ | ConnPipe _ => true
                                      | _ => false
                                      end) log).

Definition sets_header (name : string) (log : list event) : bool :=
  List.existsb (fun ev => match ev with
                          | ConnSetHeader n _ => String.eqb n name
                          | _ => false
                          end) log.

Definition supported (protocol : string) : bool :=
  String.eqb protocol "http:" || String.eqb protocol "https:".

Definition redirect_status (r : Reply) : bool :=
  match status r with
  | Some c => Z.leb 301 c && Z.leb c 303
  | None => false
  end.

(** The redirect targets a chain of replies leads through, starting from a
    request at [uri], oldest first. *)
Fixpoint locations (ext : Externals) (uri : Url.t) (chain : list Reply) : list string :=
  match chain with
  | [] => []
  | r :: rest =>
      let target := qualifiedRedirection (Url.origin uri) (reply_headers r !! "location") in
      target :: match new_URL ext target with
                | Some u => locations ext u rest
                | None => []
                end
  end.

(** A chain of consecutive redirects answering a request at [uri]: every
    reply has a redirect status and names a location that parses to an
    http(s) URI, the request at which the next reply answers. *)
Fixpoint redirect_chain (ext : Externals) (uri : Url.t) (chain : list Reply) : bool :=
  match chain with
  | [] => true
  | r :: rest =>
      redirect_status r
      && match new_URL ext (qualifiedRedirection (Url.origin uri)
                              (reply_headers r !! "location")) with
         | Some u => supported (Url.protocol u) && redirect_chain ext u rest
         | None => false
         end
  end.

(** The descriptor [sanitizeOpts] builds for [request.get(uri, { maxRedirects })]. *)
Definition redirected_descriptor (u : Url.t) (budget : number) : RequestOptions.t :=
  {| RequestOptions.method := "get";
     RequestOptions.headers := ∅;
     RequestOptions.uri := u;
     RequestOptions.proxy := None;
     RequestOptions.maxRedirects := Number.max0 (Number.floor budget);
     RequestOptions.auth := None;
     RequestOptions.body := None;
     RequestOptions.form := None;
     RequestOptions.formData := None;
     RequestOptions.qs := None;
     RequestOptions.query := None;
     RequestOptions.decompress := true;
     RequestOptions.rejectError := false;
     RequestOptions.raw := false;
     RequestOptions.tls := None;
     RequestOptions.simple := false;
     RequestOptions.path := None;
     RequestOptions.agent := None |}.

(** The transport request of a plain GET with default options. *)
Definition plain_get (ext : Externals) : RequestArgs :=
  {| req_method := "GET";
     req_headers := {[ "User-Agent" := HOne (defaultUserAgent ext) ]};
     req_auth := None;
     req_agent := None;
     req_tls := [] |}.

(** Following a redirect: drain, run [request.get(target, { maxRedirects })]
    against the rest of the script, and prepend [target] to the trail of the
    response it emits. *)
Definition reissue (ext : Externals) (target : string) (budget : number)
  (rest : list signal) : list event * outcome :=
  let '(log, res) :=
    exchange ext
      (methodRequests ext "get" (Positional (UriString target)) (Options.of_maxRedirects budget))
      rest in
  (RespDrain :: log,
   match res with
   | inl e => Uncaught e
   | inr next => listen (prepend target) next
   end).

Definition descriptor_of (call : M Connection) : option RequestOptions.t :=
  match snd call with
  | inr conn => Some (descriptor conn)
  | inl _ => None
  end.

(** ** Data of the examples *)

Module Ex.

Definition ok : Reply := {| status := Some 200%Z; reply_headers := ∅ |}.

Definition found_without_location : Reply := {| status := Some 302%Z; reply_headers := ∅ |}.

Definition x_a : gmap string header := {[ "X-A" := HOne "1" ]}.
Definition x_b : gmap string header := {[ "X-B" := HOne "2" ]}.

(** U+00E9, one UTF-16 code unit, two bytes in UTF-8. *)
Definition e_acute : string := String "233"%char EmptyString.

Definition proxy_with (username password : option string) : ProxyOption :=
  ProxyObject (ProxyInput.mk (UriString "http://p.example:8080") None username password).

Definition moved (code : Z) (location : string) : Reply :=
  {| status := Some code; reply_headers := {[ "location" := location ]} |}.

Definition a_example : Url.t := Url.mk "https:" "a.example" "" "/x" "".
Definition t_example : Url.t := Url.mk "https:" "t.example" "" "/" "".
Definition p_example : Url.t := Url.mk "http:" "p.example" "8080" "/" "".

(** A descriptor with the default value of every option but the method, the
    URI, the redirect budget and the body. *)
Definition plain (method : string) (u : Url.t) (budget : number) (body : option value)
  : RequestOptions.t :=
  RequestOptions.mk method ∅ u None budget None body None None None None
    true false false None false None None.

Definition via_proxy (u : Url.t) (proxy : Proxy.t) : RequestOptions.t :=
  RequestOptions.mk "GET" ∅ u (Some proxy) (Number.of_nat 0) None None None None None None
    true false false None false None None.

(** A POST with a string body, a form and form data at once. *)
Definition post_everything : RequestOptions.t :=
  RequestOptions.mk "POST" ∅ a_example None (Number.of_nat 0) None
    (Some (VString "hello")) (Some (VObject [("a", VString "1")]))
    (Some (VObject [("f", VString "2")])) None None
    true false false None false None None.

(** A POST with headers, credentials, a body, TLS options and an agent. *)
Definition loaded_post : RequestOptions.t :=
  RequestOptions.mk "POST" x_a a_example None (Number.of_nat 3)
    (Some (mkAuth "user" "pass")) (Some (VString "hello")) None None None None
    true false false (Some [("rejectUnauthorized", VBool false)]) false None
    (Some (AgentObject 1)).

Definition two_hops : list Reply := [moved 302 "/b"; moved 301 "https://c.example/"].

End Ex.

(** * Properties *)

Section Properties.

Context (ext : Externals).

(** ** Numbers *)

Lemma Qle_bool_false_lt (q : Q) : Qle_bool q 0 = false -> (0 < q)%Q.
Proof.
  intros H. apply Qnot_le_lt. intros Hle.
  apply Qle_bool_iff in Hle. congruence.
Qed.

Lemma floor_pred_nat (q : Q) (n : nat) :
  (q == inject_Z (Z.of_nat (S n)))%Q -> Qfloor (q - 1) = Z.of_nat n.
Proof.
  intros Hq.
  assert (Hq' : (q - 1 == inject_Z (Z.of_nat n))%Q).
  { rewrite Hq. rewrite Nat2Z.inj_succ. unfold Z.succ.
    rewrite inject_Z_plus. ring. }
  rewrite Hq'. apply Qfloor_Z.
Qed.

Lemma budget_step (q : Q) (n : nat) :
  (q == inject_Z (Z.of_nat (S n)))%Q ->
  Number.max0 (Number.floor (Number.pred (Num q))) = Number.of_nat n.
Proof.
  intros Hq. cbn [Number.pred Number.floor]. rewrite (floor_pred_nat q n Hq).
  unfold Number.of_nat, Number.of_Z, Number.max0.
  destruct (Qle_bool (inject_Z (Z.of_nat n)) 0) eqn:E; [|reflexivity].
  apply Qle_bool_iff in E. unfold Qle in E. cbn in E.
  assert (Z.of_nat n = 0%Z) as -> by lia. reflexivity.
Qed.

Lemma gt0_positive (q : Q) (n : nat) :
  (q == inject_Z (Z.of_nat (S n)))%Q -> Number.gt0 (Num q) = true.
Proof.
  intros Hq. cbn. destruct (Qle_bool q 0) eqn:E; [|reflexivity].
  apply Qle_bool_iff in E. rewrite Hq in E. unfold Qle in E. cbn in E. lia.
Qed.

Lemma gt0_zero (q : Q) : (q == 0)%Q -> Number.gt0 (Num q) = false.
Proof.
  intros Hq. cbn. destruct (Qle_bool q 0) eqn:E; [reflexivity|].
  apply Qle_bool_false_lt in E. rewrite Hq in E. discriminate.
Qed.

(** ** The synchronous part of [request.get(target, { maxRedirects })] *)

Lemma supported_cases (p : string) :
  supported p = true -> p = "http:" \/ p = "https:".
Proof.
  unfold supported. intros H. apply orb_true_iff in H.
  destruct H as [H|H]; apply String.eqb_eq in H; auto.
Qed.

Lemma httpLib_supported (p : string) :
  supported p = true ->
  httpLib p = ([], inr (if String.eqb p "https:" then Https else Http)).
Proof.
  intros H. destruct (supported_cases p H) as [-> | ->]; reflexivity.
Qed.

Lemma httpLib_unsupported (p : string) :
  supported p = false -> httpLib p = ([], inl ProtocolNotSupported).
Proof.
  unfold supported, httpLib. intros H. apply orb_false_iff in H.
  destruct H as [H1 H2]. apply String.eqb_neq in H1, H2.
  repeat case_decide; solve [congruence | reflexivity].
Qed.

Lemma get_request (target : string) (budget : number) :
  methodRequests ext "get" (Positional (UriString target)) (Options.of_maxRedirects budget) =
  match new_URL ext target with
  | None => ([], inl InvalidURL)
  | Some u =>
      if supported (Url.protocol u)
      then ([HttpRequest (is_https u) u (plain_get ext); ConnEnd None],
            inr {| via := Direct; descriptor := redirected_descriptor u budget |})
      else ([], inl ProtocolNotSupported)
  end.
Proof.
  unfold methodRequests, wrapWithDefaults, _request, sanitizeOpts. cbn.
  destruct (new_URL ext target) as [u|]; [|reflexivity]. cbn.
  unfold createConnection. cbn.
  destruct (supported (Url.protocol u)) eqn:Hs.
  - rewrite (httpLib_supported _ Hs). cbn.
    unfold plain_get, target_headers, redirected_descriptor, is_https. cbn.
    rewrite (left_id_L ∅ (∪)).
    destruct (Url.protocol u =? "https:")%string; reflexivity.
  - rewrite (httpLib_unsupported _ Hs). reflexivity.
Qed.

(** ** The response side, one step at a time *)

Lemma responsePromise_terminal (options : RequestOptions.t) (r : Reply) (rest : list signal) :
  follows options (incoming r) = false ->
  responsePromise ext options (Answer r :: rest) = ([], Response (incoming r)).
Proof. intros H. cbn [responsePromise]. rewrite H. reflexivity. Qed.

Lemma responsePromise_follow (options : RequestOptions.t) (r : Reply) (rest : list signal) :
  follows options (incoming r) = true ->
  responsePromise ext options (Answer r :: rest) =
  reissue ext
    (qualifiedRedirection (Url.origin (RequestOptions.uri options))
       (reply_headers r !! "location"))
    (Number.pred (RequestOptions.maxRedirects options)) rest.
Proof.
  intros H. cbn [responsePromise]. rewrite H.
  unfold reissue, exchange, settle. cbn [incoming resp_headers].
  destruct (methodRequests ext "get" _ _) as [log [e|conn]]; [reflexivity|].
  destruct (via conn).
  - destruct (responsePromise ext (descriptor conn) rest) as [log' out]. reflexivity.
  - destruct (tunnelled ext (descriptor conn) rest) as [log' out]. reflexivity.
Qed.

Lemma reissue_direct (target : string) (budget : number) (rest : list signal) (u : Url.t) :
  new_URL ext target = Some u ->
  supported (Url.protocol u) = true ->
  reissue ext target budget rest =
  (RespDrain :: HttpRequest (is_https u) u (plain_get ext) :: ConnEnd None
     :: fst (responsePromise ext (redirected_descriptor u budget) rest),
   listen (prepend target) (snd (responsePromise ext (redirected_descriptor u budget) rest))).
Proof.
  intros Hu Hs. unfold reissue. rewrite get_request, Hu, Hs.
  unfold exchange, settle. cbn [via descriptor].
  destruct (responsePromise ext (redirected_descriptor u budget) rest) as [log out].
  reflexivity.
Qed.

Lemma reissue_invalid (target : string) (budget : number) (rest : list signal) :
  new_URL ext target = None ->
  reissue ext target budget rest = ([RespDrain], Uncaught InvalidURL).
Proof. intros Hu. unfold reissue. rewrite get_request, Hu. reflexivity. Qed.

Lemma reissue_unsupported (target : string) (budget : number) (rest : list signal) (u : Url.t) :
  new_URL ext target = Some u ->
  supported (Url.protocol u) = false ->
  reissue ext target budget rest = ([RespDrain], Uncaught ProtocolNotSupported).
Proof. intros Hu Hs. unfold reissue. rewrite get_request, Hu, Hs. reflexivity. Qed.

Lemma follows_redirect (options : RequestOptions.t) (r : Reply) :
  Number.gt0 (RequestOptions.maxRedirects options) = true ->
  redirect_status r = true ->
  follows options (incoming r) = true.
Proof.
  unfold follows, redirect_status. cbn [incoming statusCode]. intros -> H.
  destruct (status r) as [c|]; [|discriminate].
  apply andb_true_iff in H. destruct H as [H1 H2]. rewrite H1, H2.
  assert (c <> 0%Z) as Hc by (apply Z.leb_le in H1; lia).
  apply Z.eqb_neq in Hc. rewrite Hc. reflexivity.
Qed.

(** ** The redirect trail *)

(** C2 (amended): for every terminal response, the redirect trail attached
    to it lists the resolved locations of the redirects that were followed in
    the order they were visited, the first one followed at the head and the
    most recent one last: entry by entry it parses to the URIs of the
    follow-up requests in the order they were issued.  Its length is the
    number of redirects followed, and no trail is attached exactly when none
    was followed. *)
Theorem redirect_trail_visiting_order
  (options : RequestOptions.t) (script : list signal) (log : list event)
  (resp : IncomingMessage) :
  responsePromise ext options script = (log, Response resp) ->
  Forall2 (fun location u => new_URL ext location = Some u)
    (default [] (redirects resp)) (requests log)
  /\ List.length (default [] (redirects resp)) = drains log
  /\ (redirects resp = None <-> drains log = 0).
Proof.
  revert options log resp.
  induction script as [|sig rest IH]; intros options log resp Hrun.
  - discriminate Hrun.
  - destruct sig as [r|err]; [|discriminate Hrun].
    destruct (follows options (incoming r)) eqn:Hf.
    + rewrite (responsePromise_follow _ _ _ Hf) in Hrun.
      set (target := qualifiedRedirection _ _) in Hrun.
      destruct (new_URL ext target) as [u|] eqn:Hu;
        [|rewrite (reissue_invalid _ _ _ Hu) in Hrun; discriminate Hrun].
      destruct (supported (Url.protocol u)) eqn:Hs;
        [|rewrite (reissue_unsupported _ _ _ _ Hu Hs) in Hrun; discriminate Hrun].
      rewrite (reissue_direct _ _ _ _ Hu Hs) in Hrun.
      destruct (responsePromise ext (redirected_descriptor u _) rest)
        as [log' out] eqn:Hnext.
      cbn [fst snd] in Hrun.
      destruct out as [nextResp| | |]; try discriminate Hrun.
      injection Hrun as <- <-.
      destruct (IH _ _ _ Hnext) as (Hall & Hlen & _).
      cbn [prepend redirects default]. repeat split.
      * cbn. constructor; assumption.
      * cbn. unfold drains in Hlen. cbn in Hlen. rewrite Hlen. reflexivity.
      * discriminate.
      * discriminate.
    + rewrite (responsePromise_terminal _ _ _ Hf) in Hrun.
      injection Hrun as <- <-. cbn. repeat split; constructor.
Qed.

(** ** The redirect budget *)

Lemma requests_reissue (s : bool) (u : Url.t) (args : RequestArgs) (log : list event) :
  requests (RespDrain :: HttpRequest s u args :: ConnEnd None :: log) = u :: requests log.
Proof. reflexivity. Qed.

Lemma drains_reissue (s : bool) (u : Url.t) (args : RequestArgs) (log : list event) :
  drains (RespDrain :: HttpRequest s u args :: ConnEnd None :: log) = S (drains log).
Proof. reflexivity. Qed.

Lemma locations_length (chain : list Reply) :
  forall uri : Url.t,
    redirect_chain ext uri chain = true ->
    List.length (locations ext uri chain) = List.length chain.
Proof.
  induction chain as [|r chain IH]; intros uri Hfol; [reflexivity|].
  cbn [redirect_chain locations] in *.
  apply andb_true_iff in Hfol. destruct Hfol as [_ Hfol].
  destruct (new_URL ext _) as [u|]; [|discriminate Hfol].
  apply andb_true_iff in Hfol. destruct Hfol as [_ Hfol].
  cbn [List.length]. rewrite (IH u Hfol). reflexivity.
Qed.

Lemma chain_followed (chain : list Reply) :
  forall (options : RequestOptions.t) (q : Q) (last : Reply) (rest : list signal),
    RequestOptions.maxRedirects options = Num q ->
    (q == inject_Z (Z.of_nat (List.length chain)))%Q ->
    redirect_chain ext (RequestOptions.uri options) chain = true ->
    exists log,
      responsePromise ext options (List.map Answer (chain ++ [last]) ++ rest)
      = (log,
         Response {| statusCode := status last;
                     resp_headers := reply_headers last;
                     redirects := match chain with
                                  | [] => None
                                  | _ => Some (locations ext (RequestOptions.uri options) chain)
                                  end |})
      /\ List.length (requests log) = List.length chain
      /\ drains log = List.length chain.
Proof.
  induction chain as [|r chain IH]; intros options q last rest Hmax Hq Hfol.
  - exists []. cbn [List.app List.map].
    rewrite responsePromise_terminal; [auto|].
    unfold follows. rewrite Hmax, (gt0_zero q Hq). reflexivity.
  - cbn [List.length] in Hq.
    cbn [redirect_chain] in Hfol.
    apply andb_true_iff in Hfol. destruct Hfol as [Hr Hfol].
    set (target := qualifiedRedirection (Url.origin (RequestOptions.uri options))
                     (reply_headers r !! "location")) in *.
    destruct (new_URL ext target) as [u|] eqn:Hu; [|discriminate Hfol].
    apply andb_true_iff in Hfol. destruct Hfol as [Hs Hfol].
    cbn [List.app List.map].
    rewrite responsePromise_follow
      by (apply follows_redirect; [rewrite Hmax; apply (gt0_positive q _ Hq)|exact Hr]).
    fold target. rewrite (reissue_direct _ _ _ _ Hu Hs).
    destruct (IH (redirected_descriptor u (Number.pred (RequestOptions.maxRedirects options)))
                (inject_Z (Z.of_nat (List.length chain))) last rest)
      as (log & Hrun & Hreq & Hdr).
    + cbn [redirected_descriptor RequestOptions.maxRedirects].
      rewrite Hmax. apply (budget_step q _ Hq).
    + reflexivity.
    + exact Hfol.
    + rewrite Hrun. cbn [fst snd].
      eexists. split; [|split].
      * f_equal. f_equal. unfold prepend. cbn [statusCode resp_headers redirects].
        f_equal. cbn [locations]. fold target. rewrite Hu.
        cbn [redirected_descriptor RequestOptions.uri].
        destruct chain; reflexivity.
      * rewrite requests_reissue. cbn [List.length]. rewrite Hreq. reflexivity.
      * rewrite drains_reissue. rewrite Hdr. reflexivity.
Qed.

(** C3: a descriptor with [maxRedirects = N > 0] answered by a chain of N+1
    consecutive redirect responses (N redirects leading from one request to
    the next, then one more response with a redirect status) follows exactly
    N redirects, and the (N+1)-th response is the terminal one, carrying the
    trail of the N locations; with [maxRedirects = 0] a 302 response is
    returned as it is, no request is issued and no trail is attached. *)
Theorem redirect_budget :
  (forall (options : RequestOptions.t) (N : nat) (chain : list Reply) (last : Reply)
          (rest : list signal),
      RequestOptions.maxRedirects options = Number.of_nat N ->
      0 < N ->
      List.length chain = N ->
      redirect_chain ext (RequestOptions.uri options) chain = true ->
      redirect_status last = true ->
      exists log,
        responsePromise ext options (List.map Answer (chain ++ [last]) ++ rest)
        = (log, Response {| statusCode := status last;
                            resp_headers := reply_headers last;
                            redirects := Some (locations ext (RequestOptions.uri options) chain) |})
        /\ List.length (requests log) = N
        /\ drains log = N
        /\ List.length (locations ext (RequestOptions.uri options) chain) = N)
  /\ (forall (options : RequestOptions.t) (r : Reply) (rest : list signal),
      RequestOptions.maxRedirects options = Number.of_nat 0 ->
      status r = Some 302%Z ->
      responsePromise ext options (Answer r :: rest) = ([], Response (incoming r))
      /\ redirects (incoming r) = None).
Proof.
  split.
  - intros options N chain last rest Hmax HN Hlen Hfol Hlast.
    destruct (chain_followed chain options (inject_Z (Z.of_nat N)) last rest)
      as (log & Hrun & Hreq & Hdr); try assumption.
    { rewrite Hlen. reflexivity. }
    destruct chain as [|r chain]; [cbn in Hlen; lia|].
    exists log.
    repeat split; try congruence.
    rewrite (locations_length _ _ Hfol). exact Hlen.
  - intros options r rest Hmax Hst. split; [|reflexivity].
    apply responsePromise_terminal. unfold follows. rewrite Hmax. reflexivity.
Qed.

(** ** Where a redirect leads *)

(** C8 (amended): when a redirect is followed, the request is re-issued at
    the Location header resolved as follows: a root-relative value (one
    starting with a single [/]) is appended to the origin of the original
    URI, a non-empty value that does not start with [/] is used verbatim,
    and an absent value (no header, or an empty one) gives [/]. *)
Theorem redirect_location_resolution
  (options : RequestOptions.t) (r : Reply) (rest : list signal) :
  follows options (incoming r) = true ->
  exists target,
    responsePromise ext options (Answer r :: rest)
    = reissue ext target (Number.pred (RequestOptions.maxRedirects options)) rest
    /\ match reply_headers r !! "location" with
       | None => target = "/"
       | Some l =>
           (JsString.startsWith "/" l = true ->
            JsString.startsWith "//" l = false ->
            target = Url.origin (RequestOptions.uri options) +:+ l)
           /\ (JsString.startsWith "/" l = false -> l <> "" -> target = l)
           /\ (l = "" -> target = "/")
       end.
Proof.
  intros Hf. eexists. split; [apply (responsePromise_follow _ _ _ Hf)|].
  destruct (reply_headers r !! "location") as [l|]; [|reflexivity].
  unfold qualifiedRedirection. repeat split.
  - intros Hs _. rewrite Hs. destruct l; [discriminate Hs|reflexivity].
  - intros Hs Hl. rewrite Hs, andb_false_r. destruct l; [congruence|reflexivity].
  - intros ->. reflexivity.
Qed.

(** ** What a redirected request carries *)

(** C10: when a redirect is followed and the request is re-issued, it is
    [request.get] at the resolved location with the decremented budget and
    nothing else: its descriptor has the default value of every other option
    (no headers, auth, body, form, formData, qs, query, tls, agent or proxy of
    the original request), and the transport request is a GET carrying only
    the default User-Agent, ended at once. *)
Theorem redirected_request_is_fresh_get
  (options : RequestOptions.t) (r : Reply) (rest : list signal) (u : Url.t) :
  follows options (incoming r) = true ->
  new_URL ext (qualifiedRedirection (Url.origin (RequestOptions.uri options))
                 (reply_headers r !! "location")) = Some u ->
  supported (Url.protocol u) = true ->
  exists (d : RequestOptions.t) (args : RequestArgs),
    methodRequests ext "get"
      (Positional (UriString (qualifiedRedirection (Url.origin (RequestOptions.uri options))
                                (reply_headers r !! "location"))))
      (Options.of_maxRedirects (Number.pred (RequestOptions.maxRedirects options)))
    = ([HttpRequest (is_https u) u args; ConnEnd None], inr {| via := Direct; descriptor := d |})
    /\ fst (responsePromise ext options (Answer r :: rest))
       = RespDrain :: HttpRequest (is_https u) u args :: ConnEnd None
           :: fst (responsePromise ext d rest)
    /\ (RequestOptions.uri d = u
        /\ RequestOptions.maxRedirects d
           = Number.max0 (Number.floor (Number.pred (RequestOptions.maxRedirects options)))
        /\ RequestOptions.method d = "get"
        /\ RequestOptions.headers d = ∅
        /\ RequestOptions.auth d = None
        /\ RequestOptions.body d = None
        /\ RequestOptions.form d = None
        /\ RequestOptions.formData d = None
        /\ RequestOptions.qs d = None
        /\ RequestOptions.query d = None
        /\ RequestOptions.tls d = None
        /\ RequestOptions.agent d = None
        /\ RequestOptions.proxy d = None
        /\ RequestOptions.path d = None)
    /\ (req_method args = "GET"
        /\ req_headers args = {[ "User-Agent" := HOne (defaultUserAgent ext) ]}
        /\ req_auth args = None
        /\ req_agent args = None
        /\ req_tls args = []).
Proof.
  intros Hf Hu Hs.
  exists (redirected_descriptor u (Number.pred (RequestOptions.maxRedirects options))),
    (plain_get ext).
  split; [rewrite get_request, Hu, Hs; reflexivity|].
  split; [|split; repeat split].
  rewrite (responsePromise_follow _ _ _ Hf), (reissue_direct _ _ _ _ Hu Hs).
  reflexivity.
Qed.

(** ** Descriptors *)

Lemma bind_inr {A B : Type} (m : M A) (f : A -> M B) (log : list event) (b : B) :
  bind m f = (log, inr b) ->
  exists l1 a l2, m = (l1, inr a) /\ f a = (l2, inr b) /\ log = l1 ++ l2.
Proof.
  unfold bind. destruct m as [l1 [e|a]]; [discriminate|].
  destruct (f a) as [l2 r] eqn:Hf. intros H. injection H as <- ->.
  exists l1, a, l2. auto.
Qed.

Lemma uriToURL_log (uri : URI) : fst (uriToURL ext uri) = [].
Proof. destruct uri as [s|u]; cbn; [destruct (new_URL ext s)|]; reflexivity. Qed.

Lemma sanitizeProxy_log (p : prop ProxyOption) : fst (sanitizeProxy ext p) = [].
Proof.
  unfold sanitizeProxy. destruct (defined p) as [[[s|u]|q]|]; cbn; try reflexivity.
  - destruct (new_URL ext s); reflexivity.
  - destruct (ProxyInput.uri q) as [s|u]; cbn; [destruct (new_URL ext s)|]; reflexivity.
Qed.

(** [sanitizeOpts] calls nothing on the transport or on a connection. *)
Lemma sanitizeOpts_log (arg : Options.t + string) : fst (sanitizeOpts ext arg) = [].
Proof.
  unfold sanitizeOpts. destruct (defined (Options.uri _)) as [u|]; [|reflexivity].
  pose proof (uriToURL_log u) as Hu. destruct (uriToURL ext u) as [l1 [e|x]]; cbn in *; [exact Hu|].
  subst l1.
  pose proof (sanitizeProxy_log (Options.proxy
    match arg with inl o => o | inr s => Options.of_uri (UriString s) end)) as Hp.
  destruct (sanitizeProxy ext _) as [l2 [e|y]]; cbn in *; subst l2; reflexivity.
Qed.

Lemma sanitizeOpts_fields (opts : Options.t) (log : list event) (o : RequestOptions.t) :
  sanitizeOpts ext (inl opts) = (log, inr o) ->
  RequestOptions.headers o = default ∅ (defined (Options.headers opts))
  /\ RequestOptions.agent o = None
  /\ RequestOptions.maxRedirects o = getMaxRedirects opts.
Proof.
  unfold sanitizeOpts. destruct (defined (Options.uri opts)) as [u|]; [|discriminate].
  intros H. apply bind_inr in H. destruct H as (l1 & uri & l2 & _ & H & _).
  apply bind_inr in H. destruct H as (l3 & proxy & l4 & _ & H & _).
  injection H as _ <-. auto.
Qed.

Lemma connector_descriptor (options : RequestOptions.t) (log : list event) (conn : Connection) :
  match RequestOptions.proxy options with
  | Some _ => createProxiedConnection ext options
  | None => createConnection ext options
  end = (log, inr conn) ->
  descriptor conn = options.
Proof.
  destruct (RequestOptions.proxy options) as [proxy|] eqn:Hp.
  - unfold createProxiedConnection. rewrite Hp. intros H.
    apply bind_inr in H. destruct H as (? & ? & ? & _ & H & _).
    apply bind_inr in H. destruct H as (? & ? & ? & _ & H & _).
    apply bind_inr in H. destruct H as (? & ? & ? & _ & H & _).
    injection H as _ <-. reflexivity.
  - unfold createConnection. intros H.
    apply bind_inr in H. destruct H as (? & ? & ? & _ & H & _).
    apply bind_inr in H. destruct H as (? & ? & ? & _ & H & _).
    injection H as _ <-. reflexivity.
Qed.

Lemma _request_descriptor (uri : target) (opts : Options.t) (log : list event)
  (conn : Connection) :
  _request ext uri opts = (log, inr conn) ->
  exists o,
    sanitizeOpts ext
      (inl match uri with
           | Positional u => Options.spread opts (Options.of_uri u)
           | Bag b => Options.spread opts b
           end) = ([], inr o)
    /\ descriptor conn = apply_query ext (apply_path o).
Proof.
  unfold _request. intros H.
  apply bind_inr in H. destruct H as (l1 & o & l2 & Hs & H & _).
  apply bind_inr in H. destruct H as (l3 & c & l4 & Hc & H & _).
  apply bind_inr in H. destruct H as (l5 & [] & l6 & _ & H & _).
  injection H as _ <-.
  exists o. split.
  - pose proof (sanitizeOpts_log (inl match uri with
                                      | Positional u => Options.spread opts (Options.of_uri u)
                                      | Bag b => Options.spread opts b
                                      end)) as Hl.
    rewrite Hs in Hl. cbn in Hl. subst l1. exact Hs.
  - apply (connector_descriptor _ _ _ Hc).
Qed.

Lemma apply_headers (o : RequestOptions.t) :
  RequestOptions.headers (apply_query ext (apply_path o)) = RequestOptions.headers o.
Proof.
  unfold apply_query, apply_path.
  destruct (RequestOptions.path o) as [p|]; [destruct (JsString.truthy p)|];
    cbn; destruct (RequestOptions.qs o); cbn; try reflexivity;
    destruct (RequestOptions.query o); reflexivity.
Qed.

Lemma apply_agent (o : RequestOptions.t) :
  RequestOptions.agent (apply_query ext (apply_path o)) = RequestOptions.agent o.
Proof.
  unfold apply_query, apply_path.
  destruct (RequestOptions.path o) as [p|]; [destruct (JsString.truthy p)|];
    cbn; destruct (RequestOptions.qs o); cbn; try reflexivity;
    destruct (RequestOptions.query o); reflexivity.
Qed.

(** C1 (amended): the entry point returned by [request.defaults] merges the
    defaults under the per-call options one top-level key at a time.  When
    the per-call options have a [headers] key, the descriptor's headers are
    the per-call headers alone (none if the key holds [undefined]) and no
    header of the defaults is kept; the headers of the defaults are used only
    when the per-call options have no [headers] key. *)
Theorem defaults_merge_is_shallow
  (defaults opts : Options.t) (uri : URI) (log : list event) (conn : Connection) :
  request_defaults ext defaults (Positional uri) opts = (log, inr conn) ->
  request_defaults ext defaults (Positional uri) opts
  = _request ext (Positional uri) (Options.spread defaults opts)
  /\ RequestOptions.headers (descriptor conn)
     = match Options.headers opts with
       | Missing => default ∅ (defined (Options.headers defaults))
       | Undefined => ∅
       | Value h => h
       end.
Proof.
  intros H. split; [reflexivity|].
  apply _request_descriptor in H. destruct H as (o & Hs & ->).
  rewrite apply_headers.
  apply sanitizeOpts_fields in Hs. destruct Hs as (-> & _).
  cbn. destruct (Options.headers opts); reflexivity.
Qed.

(** ** A call without a URI *)

(** C9: when no argument supplies a [uri] (the first argument is an options
    object without a defined [uri], and neither the second argument nor, for
    a wrapped entry point, the defaults define one), the call throws
    'uri must be defined' to the caller with an empty log: no transport
    request has been opened and nothing was done on a connection, whatever
    the transport would have answered. *)
Theorem missing_uri_throws_before_connecting :
  (forall (o opts : Options.t) (script : list signal),
      defined (Options.uri o) = None ->
      defined (Options.uri opts) = None ->
      exchange ext (_request ext (Bag o) opts) script = ([], inl UriMustBeDefined))
  /\ (forall (defaults o opts : Options.t) (script : list signal),
      defined (Options.uri o) = None ->
      defined (Options.uri defaults) = None ->
      exchange ext (wrapWithDefaults (_request ext) defaults (Bag o) opts) script
      = ([], inl UriMustBeDefined)).
Proof.
  split.
  - intros o opts script Ho Hopts.
    unfold _request, sanitizeOpts. cbn.
    destruct (Options.uri o); cbn in *; try discriminate; [rewrite Hopts|]; reflexivity.
  - intros defaults o opts script Ho Hd.
    unfold wrapWithDefaults, _request, sanitizeOpts. cbn.
    destruct (Options.uri o), (Options.uri defaults); cbn in *;
      try discriminate; reflexivity.
Qed.

(** ** The body written into the connection *)

Lemma writeBody_get (options : RequestOptions.t) :
  is_get options = true -> writeBody ext options = ([ConnEnd None], inr tt).
Proof. intros H. unfold writeBody. rewrite H. reflexivity. Qed.

Lemma writeBody_raw (options : RequestOptions.t) (body : value) :
  is_get options = false ->
  RequestOptions.body options = Some body ->
  Value.is_string_or_buffer body = true ->
  writeBody ext options
  = ([ConnSetHeader "Content-Length" (HNumber (Value.length body)); ConnEnd (Some body)],
     inr tt).
Proof. intros H Hb Hs. unfold writeBody. rewrite H, Hb, Hs. reflexivity. Qed.

Lemma writeBody_stream (options : RequestOptions.t) (body : value) :
  is_get options = false ->
  RequestOptions.body options = Some body ->
  Value.is_string_or_buffer body = false ->
  Value.is_byte_stream body = true ->
  writeBody ext options = ([ConnPipe (BodyStream body)], inr tt).
Proof. intros H Hb Hs Hp. unfold writeBody. rewrite H, Hb, Hs, Hp. reflexivity. Qed.

Lemma writeBody_json (options : RequestOptions.t) (body : value) :
  is_get options = false ->
  RequestOptions.body options = Some body ->
  Value.is_string_or_buffer body = false ->
  Value.is_byte_stream body = false ->
  writeBody ext options
  = match JSON_stringify ext body with
    | Some payload =>
        ([ConnSetHeader "Content-Type" (HString "application/json; charset=utf-8");
          ConnSetHeader "Content-Length" (HNumber (String.length payload));
          ConnEnd (Some (VString payload))], inr tt)
    | None =>
        ([ConnSetHeader "Content-Type" (HString "application/json; charset=utf-8")],
         inl TypeError)
    end.
Proof.
  intros H Hb Hs Hp. unfold writeBody. rewrite H, Hb, Hs, Hp.
  destruct (JSON_stringify ext body); reflexivity.
Qed.

Lemma writeBody_form (options : RequestOptions.t) (form : value) :
  is_get options = false ->
  RequestOptions.body options = None ->
  RequestOptions.form options = Some form ->
  Value.truthy form = true ->
  writeBody ext options
  = ([ConnSetHeader "Content-Type" (HString "application/x-www-form-urlencoded");
      ConnSetHeader "Content-Length" (HNumber (String.length (qs_stringify ext form)));
      ConnEnd (Some (VString (qs_stringify ext form)))], inr tt).
Proof.
  intros H Hb Hf Ht. unfold writeBody, option_truthy. rewrite H, Hb, Hf, Ht. reflexivity.
Qed.

Lemma writeBody_formData (options : RequestOptions.t) (formData : value) :
  is_get options = false ->
  RequestOptions.body options = None ->
  option_truthy (RequestOptions.form options) = false ->
  RequestOptions.formData options = Some formData ->
  Value.truthy formData = true ->
  writeBody ext options
  = ([ConnSetHeader "Content-Type"
        (HString ("multipart/form-data;boundary=" +:+ getBoundary ext));
      ConnPipe (FormStream (List.map (fun kv => (fst kv, snd kv, fst kv))
                              (Object_entries ext formData)))], inr tt).
Proof.
  intros H Hb Hf Hd Ht. unfold writeBody. rewrite H, Hb, Hf.
  unfold option_truthy. rewrite Hd, Ht. reflexivity.
Qed.

Lemma writeBody_nothing (options : RequestOptions.t) :
  is_get options = false ->
  RequestOptions.body options = None ->
  option_truthy (RequestOptions.form options) = false ->
  option_truthy (RequestOptions.formData options) = false ->
  writeBody ext options = ([], inr tt).
Proof. intros H Hb Hf Hd. unfold writeBody. rewrite H, Hb, Hf, Hd. reflexivity. Qed.

(** C4 (amended): on each request attempt the encoder takes the first case
    that matches, in the order: GET or no method (end at once); string or
    Buffer body (Content-Length, write, end); byte-stream body (pipe); any
    other defined body (JSON, write, end); form (URL-encoded, write, end);
    formData (multipart, pipe).  A string body therefore wins over form and
    formData.  At most one of end / write-then-end / pipe occurs; none occurs
    when the method is not GET, the body is undefined and form and formData
    are unset: then nothing is written, no header is set and the writable
    side stays open. *)
Theorem body_encoding_precedence (options : RequestOptions.t) :
  terminations (fst (writeBody ext options)) <= 1
  /\ (is_get options = true -> fst (writeBody ext options) = [ConnEnd None])
  /\ (forall body : value,
        is_get options = false ->
        RequestOptions.body options = Some body ->
        (Value.is_string_or_buffer body = true ->
         fst (writeBody ext options)
         = [ConnSetHeader "Content-Length" (HNumber (Value.length body));
            ConnEnd (Some body)])
        /\ (Value.is_string_or_buffer body = false ->
            Value.is_byte_stream body = true ->
            fst (writeBody ext options) = [ConnPipe (BodyStream body)])
        /\ (forall payload : string,
              Value.is_string_or_buffer body = false ->
              Value.is_byte_stream body = false ->
              JSON_stringify ext body = Some payload ->
              fst (writeBody ext options)
              = [ConnSetHeader "Content-Type" (HString "application/json; charset=utf-8");
                 ConnSetHeader "Content-Length" (HNumber (String.length payload));
                 ConnEnd (Some (VString payload))]))
  /\ (is_get options = false ->
      RequestOptions.body options = None ->
      (forall form : value,
          RequestOptions.form options = Some form ->
          Value.truthy form = true ->
          fst (writeBody ext options)
          = [ConnSetHeader "Content-Type" (HString "application/x-www-form-urlencoded");
             ConnSetHeader "Content-Length"
               (HNumber (String.length (qs_stringify ext form)));
             ConnEnd (Some (VString (qs_stringify ext form)))])
      /\ (forall formData : value,
            option_truthy (RequestOptions.form options) = false ->
            RequestOptions.formData options = Some formData ->
            Value.truthy formData = true ->
            fst (writeBody ext options)
            = [ConnSetHeader "Content-Type"
                 (HString ("multipart/form-data;boundary=" +:+ getBoundary ext));
               ConnPipe (FormStream (List.map (fun kv => (fst kv, snd kv, fst kv))
                                       (Object_entries ext formData)))])
      /\ (option_truthy (RequestOptions.form options) = false ->
          option_truthy (RequestOptions.formData options) = false ->
          writeBody ext options = ([], inr tt)
          /\ terminations (fst (writeBody ext options)) = 0
          /\ sets_header "Content-Length" (fst (writeBody ext options)) = false)).
Proof.
  split; [|split; [|split; [|]]].
  - unfold writeBody.
    destruct (is_get options); [cbn; lia|].
    destruct (RequestOptions.body options) as [body|].
    + destruct (Value.is_string_or_buffer body); [cbn; lia|].
      destruct (Value.is_byte_stream body); [cbn; lia|].
      destruct (JSON_stringify ext body); cbn; lia.
    + destruct (option_truthy (RequestOptions.form options)); [cbn; lia|].
      destruct (option_truthy (RequestOptions.formData options)); cbn; lia.
  - intros H. rewrite (writeBody_get _ H). reflexivity.
  - intros body H Hb. repeat split.
    + intros Hs. rewrite (writeBody_raw _ _ H Hb Hs). reflexivity.
    + intros Hs Hp. rewrite (writeBody_stream _ _ H Hb Hs Hp). reflexivity.
    + intros payload Hs Hp Hj. rewrite (writeBody_json _ _ H Hb Hs Hp), Hj. reflexivity.
  - intros H Hb. split; [|split].
    + intros form Hf Ht. rewrite (writeBody_form _ _ H Hb Hf Ht). reflexivity.
    + intros formData Hf Hd Ht. rewrite (writeBody_formData _ _ H Hb Hf Hd Ht). reflexivity.
    + intros Hf Hd. rewrite (writeBody_nothing _ H Hb Hf Hd). auto.
Qed.

(** ** The CONNECT request *)

Lemma connect_headers_auth (options : RequestOptions.t) (proxy : Proxy.t) :
  connect_headers ext options proxy !! "Proxy-Authorization"
  = HOne <$> proxyAuth proxy.
Proof.
  unfold connect_headers. destruct (proxyAuth proxy) as [a|]; cbn.
  - apply lookup_insert_eq.
  - rewrite lookup_insert_ne by discriminate. apply lookup_singleton_ne. discriminate.
Qed.

(** C7 (amended): for a descriptor with a proxy, the CONNECT request sent to
    the proxy has path [target-host:target-port], the port defaulting to 80
    for an http target and to 443 for an https target, unless the proxy's own
    TLS options name a path; it carries
    [Proxy-Authorization: Basic base64(username:password)] when the proxy's
    username and password are both non-empty strings, and no
    Proxy-Authorization header when either is missing or empty. *)
Theorem connect_request_to_proxy (options : RequestOptions.t) (proxy : Proxy.t) :
  RequestOptions.proxy options = Some proxy ->
  supported (Url.protocol (Proxy.uri proxy)) = true ->
  supported (Url.protocol (RequestOptions.uri options)) = true ->
  exists args,
    createProxiedConnection ext options
    = ([HttpConnect (is_https (Proxy.uri proxy)) args],
       inr {| via := Proxied; descriptor := options |})
    /\ con_method args = "CONNECT"
    /\ (bag_get "path" (default [] (Proxy.tls proxy)) = None ->
        con_path args
        = VString (Url.hostname (RequestOptions.uri options) +:+ ":" +:+
                   (if decide (Url.port (RequestOptions.uri options) = "")
                    then (if decide (Url.protocol (RequestOptions.uri options) = "https:")
                          then "443" else "80")
                    else Url.port (RequestOptions.uri options))))
    /\ (forall user pass : string,
          Proxy.username proxy = Some user ->
          Proxy.password proxy = Some pass ->
          user <> "" -> pass <> "" ->
          con_headers args !! "Proxy-Authorization"
          = Some (HOne ("Basic " +:+ Base64.encode (JsString.utf8 (user +:+ ":" +:+ pass)))))
    /\ (Proxy.username proxy = None \/ Proxy.username proxy = Some ""
        \/ Proxy.password proxy = None \/ Proxy.password proxy = Some "" ->
        con_headers args !! "Proxy-Authorization" = None).
Proof.
  intros Hp Hsp Hst. unfold createProxiedConnection. rewrite Hp.
  rewrite (httpLib_supported _ Hsp), (httpLib_supported _ Hst). cbn.
  replace (secure (if (Url.protocol (Proxy.uri proxy) =? "https:")%string then Https else Http))
    with (is_https (Proxy.uri proxy))
    by (unfold is_https; destruct (_ =? _)%string; reflexivity).
  eexists. split; [reflexivity|]. cbn.
  split; [reflexivity|]. split; [|split].
  - intros ->. cbn. f_equal. f_equal. f_equal.
    destruct (Url.port (RequestOptions.uri options)) eqn:Hport; cbn.
    + destruct (supported_cases _ Hst) as [-> | ->]; reflexivity.
    + reflexivity.
  - intros user pass Hu Hpw Hne1 Hne2.
    rewrite connect_headers_auth. unfold proxyAuth. rewrite Hu, Hpw.
    destruct user; [congruence|]. destruct pass; [congruence|]. reflexivity.
  - intros H. rewrite connect_headers_auth. unfold proxyAuth.
    destruct (Proxy.username proxy) as [user|]; [|reflexivity].
    destruct (Proxy.password proxy) as [pass|]; [|reflexivity].
    destruct H as [H|[H|[H|H]]]; try discriminate H.
    + injection H as ->. reflexivity.
    + injection H as ->. cbn. rewrite andb_false_r. reflexivity.
Qed.

(** ** The agent option *)

(** Every direct transport request is opened without an agent, whatever the
    caller's options say. *)
Lemma direct_request_has_no_agent
  (uri : target) (opts : Options.t) (log : list event) (conn : Connection) :
  _request ext uri opts = (log, inr conn) ->
  RequestOptions.agent (descriptor conn) = None.
Proof.
  intros H. apply _request_descriptor in H. destruct H as (o & Hs & ->).
  rewrite apply_agent. apply sanitizeOpts_fields in Hs. tauto.
Qed.

(** ** Content-Length of a string or Buffer body *)

Lemma buffer_length_is_wire_length (bytes : list byte) :
  Value.length (VBuffer bytes) = Value.wire_length (VBuffer bytes).
Proof. reflexivity. Qed.

Lemma byteLength_ge_length (s : string) : String.length s <= JsString.byteLength s.
Proof.
  induction s as [|c s IH]; cbn; [lia|].
  unfold JsString.utf8_width. destruct (Nat.ltb _ _); lia.
Qed.

Lemma ascii_length_is_byteLength (s : string) :
  Url.all_units (fun c => Nat.ltb (nat_of_ascii c) 128) s = true ->
  String.length s = JsString.byteLength s.
Proof.
  induction s as [|c s IH]; [reflexivity|].
  cbn [Url.all_units String.length JsString.byteLength]. intros H.
  apply andb_true_iff in H. destruct H as [Hc Hs].
  unfold JsString.utf8_width. rewrite Hc, (IH Hs). reflexivity.
Qed.

Lemma byteLength_utf8 (s : string) : JsString.byteLength s = List.length (JsString.utf8 s).
Proof.
  induction s as [|c s IH]; [reflexivity|].
  cbn [JsString.byteLength JsString.utf8]. rewrite length_app, IH. f_equal.
  unfold JsString.utf8_width, JsString.utf8_unit, nat_of_ascii.
  destruct (N.ltb (N_of_ascii c) 128) eqn:E.
  - apply N.ltb_lt in E. destruct (Nat.ltb _ _) eqn:E'; [reflexivity|].
    apply Nat.ltb_ge in E'. lia.
  - apply N.ltb_ge in E. destruct (Nat.ltb _ _) eqn:E'; [|reflexivity].
    apply Nat.ltb_lt in E'. lia.
Qed.

End Properties.

(** * The properties at concrete inputs *)

(** ** C1 *)

(** C1, counterexample: [request.defaults({headers: {'X-A': '1'}})('http://x',
    {headers: {'X-B': '2'}})] yields a descriptor whose headers are the
    per-call headers only: X-A is absent from the descriptor and from the
    headers of the transport request, although the keys do not collide. *)
Lemma defaults_headers_are_replaced :
  let call :=
    request_defaults Sample.node (Options.of_headers Ex.x_a)
      (Positional (UriString "http://x")) (Options.of_headers Ex.x_b) in
  RequestOptions.headers <$> descriptor_of call = Some Ex.x_b
  /\ Ex.x_b !! "X-A" = None
  /\ (fun args => req_headers args !! "X-A") <$> request_args (fst call) = [None]
  /\ (fun args => req_headers args !! "X-B") <$> request_args (fst call) = [Some (HOne "2")].
Proof. vm_compute. repeat split. Qed.

Lemma defaults_merge_is_shallow_witness :
  exists log conn,
    request_defaults Sample.node (Options.of_headers Ex.x_a)
      (Positional (UriString "http://x")) (Options.of_headers Ex.x_b) = (log, inr conn)
    /\ RequestOptions.headers (descriptor conn) = Ex.x_b.
Proof.
  destruct (request_defaults Sample.node (Options.of_headers Ex.x_a)
              (Positional (UriString "http://x")) (Options.of_headers Ex.x_b))
    as [log [e|conn]] eqn:H.
  - vm_compute in H. discriminate H.
  - exists log, conn. split; [reflexivity|].
    exact (proj2 (defaults_merge_is_shallow Sample.node _ _ _ _ _ H)).
Defined.

(** ** C2 *)

(** C2, counterexample: a request to a.example redirected to b.example and
    from there to c.example ends with the trail [b; c]: the first location
    visited is at the head and the most recent one is last, the reverse of
    most-recent-first order. *)
Lemma trail_is_oldest_first :
  let run :=
    exchange Sample.node
      (_request Sample.node (Positional (UriString "http://a.example/"))
         (Options.of_maxRedirects (Number.of_nat 5)))
      [Answer (Ex.moved 302 "http://b.example/");
       Answer (Ex.moved 301 "http://c.example/");
       Answer Ex.ok] in
  Url.href <$> requests (fst run)
  = ["http://a.example/"; "http://b.example/"; "http://c.example/"]
  /\ snd run = inr (Response {| statusCode := Some 200%Z;
                                resp_headers := ∅;
                                redirects := Some ["http://b.example/"; "http://c.example/"] |})
  /\ ["http://b.example/"; "http://c.example/"]
     <> rev (List.tl (Url.href <$> requests (fst run))).
Proof. vm_compute. repeat split. discriminate. Qed.

Lemma redirect_trail_visiting_order_witness :
  exists log resp,
    responsePromise Sample.node (Ex.plain "GET" Ex.a_example (Number.of_nat 5) None)
      (List.map Answer (Ex.two_hops ++ [Ex.ok])) = (log, Response resp)
    /\ Forall2 (fun location u => Url.parse location = Some u)
         (default [] (redirects resp)) (requests log)
    /\ List.length (default [] (redirects resp)) = drains log.
Proof.
  destruct (responsePromise Sample.node (Ex.plain "GET" Ex.a_example (Number.of_nat 5) None)
              (List.map Answer (Ex.two_hops ++ [Ex.ok]))) as [log out] eqn:H.
  destruct out as [resp|err| |e]; try (vm_compute in H; discriminate H).
  exists log, resp. split; [reflexivity|].
  destruct (redirect_trail_visiting_order Sample.node _ _ _ _ H) as (H1 & H2 & _).
  split; [exact H1|exact H2].
Defined.

(** ** C3 *)

Lemma redirect_budget_witness :
  (exists log,
      responsePromise Sample.node (Ex.plain "GET" Ex.a_example (Number.of_nat 2) None)
        (List.map Answer (Ex.two_hops ++ [Ex.moved 303 "/z"]) ++ [Answer Ex.ok])
      = (log, Response {| statusCode := Some 303%Z;
                          resp_headers := {[ "location" := "/z" ]};
                          redirects := Some (locations Sample.node Ex.a_example Ex.two_hops) |})
      /\ List.length (requests log) = 2
      /\ drains log = 2
      /\ List.length (locations Sample.node Ex.a_example Ex.two_hops) = 2)
  /\ (responsePromise Sample.node (Ex.plain "GET" Ex.a_example (Number.of_nat 0) None)
        [Answer (Ex.moved 302 "/b"); Answer Ex.ok]
      = ([], Response (incoming (Ex.moved 302 "/b")))
      /\ redirects (incoming (Ex.moved 302 "/b")) = None).
Proof.
  split.
  - apply (proj1 (redirect_budget Sample.node)
             (Ex.plain "GET" Ex.a_example (Number.of_nat 2) None) 2 Ex.two_hops
             (Ex.moved 303 "/z") [Answer Ex.ok]).
    + reflexivity.
    + lia.
    + reflexivity.
    + reflexivity.
    + reflexivity.
  - apply (proj2 (redirect_budget Sample.node)
             (Ex.plain "GET" Ex.a_example (Number.of_nat 0) None)); reflexivity.
Defined.

(** A redirect that names no location does not continue a chain: the client
    calls [request.get('/')], whose URL does not parse, and the exception
    leaves the response listener. *)
Example redirect_without_location :
  responsePromise Sample.node (Ex.plain "GET" Ex.a_example (Number.of_nat 1) None)
    [Answer Ex.found_without_location; Answer Ex.ok]
  = ([RespDrain], Uncaught InvalidURL).
Proof. reflexivity. Qed.

Example two_hops_locations :
  locations Sample.node Ex.a_example Ex.two_hops = ["https://a.example/b"; "https://c.example/"].
Proof. reflexivity. Qed.

(** ** C4 *)

(** C4, counterexample: [request.post('http://x/')] with no body, form or
    formData opens its transport request and then neither ends the
    connection nor pipes anything into it: none of the three terminations
    occurs on this request attempt. *)
Lemma post_without_body_is_left_open :
  let log :=
    fst (methodRequests Sample.node "post" (Positional (UriString "http://x/")) Options.empty) in
  List.length (requests log) = 1
  /\ terminations log = 0
  /\ sets_header "Content-Length" log = false.
Proof. vm_compute. repeat split. Qed.

Lemma body_encoding_precedence_witness :
  fst (writeBody Sample.node Ex.post_everything)
  = [ConnSetHeader "Content-Length" (HNumber 5); ConnEnd (Some (VString "hello"))]
  /\ writeBody Sample.node (Ex.plain "POST" Ex.a_example (Number.of_nat 0) None) = ([], inr tt)
  /\ terminations
       (fst (writeBody Sample.node (Ex.plain "POST" Ex.a_example (Number.of_nat 0) None))) = 0
  /\ sets_header "Content-Length"
       (fst (writeBody Sample.node (Ex.plain "POST" Ex.a_example (Number.of_nat 0) None)))
     = false.
Proof.
  split.
  - apply (proj1 (proj1 (proj2 (proj2 (body_encoding_precedence Sample.node Ex.post_everything)))
                    (VString "hello") eq_refl eq_refl)).
    reflexivity.
  - apply (proj2 (proj2 (proj2 (proj2 (proj2
             (body_encoding_precedence Sample.node
                (Ex.plain "POST" Ex.a_example (Number.of_nat 0) None))))
                           eq_refl eq_refl))); reflexivity.
Defined.

(** ** C5 *)

(** C5, the code at the failing input: [request('http://x/', { agent })]
    opens its transport request with [agent: undefined]. *)
Lemma agent_option_is_dropped :
  req_agent <$> request_args
    (fst (_request Sample.node (Positional (UriString "http://x/"))
            (Options.of_agent (AgentObject 1))))
  = [None].
Proof. vm_compute. reflexivity. Qed.

(** ** C6 *)

(** C6, the code at the failing input: a POST whose body is the one-character
    string U+00E9 announces [Content-Length: 1] and writes that string, which
    is two bytes long on the wire. *)
Lemma content_length_counts_code_units :
  List.tl (fst (methodRequests Sample.node "post" (Positional (UriString "http://x/"))
                  (Options.of_body (VString Ex.e_acute))))
  = [ConnSetHeader "Content-Length" (HNumber 1); ConnEnd (Some (VString Ex.e_acute))]
  /\ Value.wire_length (VString Ex.e_acute) = 2
  /\ List.length (JsString.utf8 Ex.e_acute) = 2.
Proof. vm_compute. repeat split. Qed.

(** ** C7 *)

(** C7, counterexample: a proxy given with the username [''] and the password
    ['secret'] has both properties present, yet the CONNECT request carries no
    Proxy-Authorization header; and a proxy whose TLS options name a path,
    spread last into the CONNECT options, gets that path instead of
    [target-host:target-port]. *)
Lemma empty_username_sends_no_proxy_authorization :
  (fun args => (con_path args, con_headers args !! "Proxy-Authorization"))
    <$> connects
          (fst (_request Sample.node (Positional (UriString "https://t.example"))
                  (Options.of_proxy (Ex.proxy_with (Some "") (Some "secret")))))
  = [(VString "t.example:443", None)]
  /\ con_path
       <$> connects
             (fst (_request Sample.node (Positional (UriString "https://t.example"))
                     (Options.of_proxy
                        (ProxyObject
                           (ProxyInput.mk (UriString "http://p.example:8080")
                              (Some [("path", VString "/run/proxy.sock")])
                              (Some "user") (Some "pass"))))))
     = [VString "/run/proxy.sock"].
Proof. vm_compute. split; reflexivity. Qed.

Lemma connect_request_to_proxy_witness :
  exists args,
    createProxiedConnection Sample.node
      (Ex.via_proxy Ex.t_example (Proxy.mk Ex.p_example None (Some "user") (Some "pass")))
    = ([HttpConnect false args],
       inr {| via := Proxied;
              descriptor := Ex.via_proxy Ex.t_example
                              (Proxy.mk Ex.p_example None (Some "user") (Some "pass")) |})
    /\ con_method args = "CONNECT"
    /\ con_path args = VString "t.example:443"
    /\ con_headers args !! "Proxy-Authorization" = Some (HOne "Basic dXNlcjpwYXNz").
Proof.
  destruct (connect_request_to_proxy Sample.node
              (Ex.via_proxy Ex.t_example (Proxy.mk Ex.p_example None (Some "user") (Some "pass")))
              (Proxy.mk Ex.p_example None (Some "user") (Some "pass"))
              eq_refl eq_refl eq_refl)
    as (args & Hrun & Hm & Hpath & Hauth & _).
  exists args. split; [exact Hrun|]. split; [exact Hm|]. split; [exact (Hpath eq_refl)|].
  apply (Hauth "user" "pass"); [reflexivity|reflexivity|discriminate|discriminate].
Defined.

(** The scenario of the specification, through the entry point. *)
Example proxy_scenario :
  (fun args => (con_method args, con_path args, con_headers args !! "Proxy-Authorization"))
    <$> connects
          (fst (_request Sample.node (Positional (UriString "https://t.example"))
                  (Options.of_proxy (Ex.proxy_with (Some "user") (Some "pass")))))
  = [("CONNECT", VString "t.example:443", Some (HOne "Basic dXNlcjpwYXNz"))].
Proof. vm_compute. reflexivity. Qed.

(** ** C8 *)

(** C8, counterexample: a followed 302 with the scheme-relative location
    [//b.example/y] is not root-relative, yet it is not used verbatim: the
    origin of the original URI is put in front of it, and the request is
    re-issued on the original host a.example with the path [//b.example/y],
    not on b.example. *)
Lemma scheme_relative_location_is_prefixed :
  let options := Ex.plain "GET" Ex.a_example (Number.of_nat 1) None in
  let r := Ex.moved 302 "//b.example/y" in
  follows options (incoming r) = true
  /\ reply_headers r !! "location" = Some "//b.example/y"
  /\ JsString.startsWith "//" "//b.example/y" = true
  /\ qualifiedRedirection (Url.origin (RequestOptions.uri options))
       (reply_headers r !! "location") = "https://a.example//b.example/y"
  /\ (fun u => (Url.hostname u, Url.pathname u))
       <$> requests (fst (responsePromise Sample.node options [Answer r; Answer Ex.ok]))
     = [("a.example", "//b.example/y")]
  /\ snd (responsePromise Sample.node options [Answer r; Answer Ex.ok])
     = Response {| statusCode := Some 200%Z;
                   resp_headers := ∅;
                   redirects := Some ["https://a.example//b.example/y"] |}.
Proof. vm_compute. repeat split. Qed.

Lemma redirect_location_resolution_witness :
  exists target,
    responsePromise Sample.node (Ex.plain "GET" Ex.a_example (Number.of_nat 1) None)
      [Answer (Ex.moved 302 "/next"); Answer Ex.ok]
    = reissue Sample.node target (Number.pred (Number.of_nat 1)) [Answer Ex.ok]
    /\ target = "https://a.example/next".
Proof.
  destruct (redirect_location_resolution Sample.node
              (Ex.plain "GET" Ex.a_example (Number.of_nat 1) None)
              (Ex.moved 302 "/next") [Answer Ex.ok] eq_refl)
    as (target & Hrun & Hloc).
  exists target. split; [exact Hrun|].
  change (reply_headers (Ex.moved 302 "/next") !! "location") with (Some "/next") in Hloc.
  exact (proj1 Hloc eq_refl eq_refl).
Defined.

(** The examples of the specification. *)
Example root_relative_location :
  qualifiedRedirection (Url.origin Ex.a_example) (Some "/next") = "https://a.example/next".
Proof. reflexivity. Qed.

Example absolute_location :
  qualifiedRedirection (Url.origin Ex.a_example) (Some "https://b.example/y")
  = "https://b.example/y".
Proof. reflexivity. Qed.

Example absent_location :
  qualifiedRedirection (Url.origin Ex.a_example) None = "/".
Proof. reflexivity. Qed.

(** ** C9 *)

Lemma missing_uri_throws_before_connecting_witness :
  exchange Sample.node
    (_request Sample.node (Bag (Options.of_method "post")) Options.empty) [Answer Ex.ok]
  = ([], inl UriMustBeDefined)
  /\ exchange Sample.node
       (wrapWithDefaults (_request Sample.node) (Options.of_headers Ex.x_a)
          (Bag (Options.of_body (VString "hello"))) Options.empty) [Answer Ex.ok]
     = ([], inl UriMustBeDefined).
Proof.
  split.
  - apply (proj1 (missing_uri_throws_before_connecting Sample.node)); reflexivity.
  - apply (proj2 (missing_uri_throws_before_connecting Sample.node)); reflexivity.
Defined.

(** ** C10 *)

Lemma redirected_request_is_fresh_get_witness :
  exists (d : RequestOptions.t) (args : RequestArgs),
    fst (responsePromise Sample.node
           Ex.loaded_post
           [Answer (Ex.moved 302 "/next"); Answer Ex.ok])
    = [RespDrain; HttpRequest true (Url.mk "https:" "a.example" "" "/next" "") args;
       ConnEnd None]
    /\ RequestOptions.headers d = ∅
    /\ RequestOptions.auth d = None
    /\ RequestOptions.method d = "get"
    /\ req_headers args = {[ "User-Agent" := HOne (defaultUserAgent Sample.node) ]}
    /\ req_auth args = None.
Proof.
  destruct (redirected_request_is_fresh_get Sample.node
              Ex.loaded_post
              (Ex.moved 302 "/next") [Answer Ex.ok]
              (Url.mk "https:" "a.example" "" "/next" "") eq_refl eq_refl eq_refl)
    as (d & args & Hcall & Hlog & Hd & Ha).
  exists d, args. split.
  - rewrite Hlog. f_equal. f_equal. f_equal.
    assert (Huri : RequestOptions.uri d = Url.mk "https:" "a.example" "" "/next" "") by tauto.
    assert (Hmax : RequestOptions.maxRedirects d = Number.of_nat 2) by (rewrite (proj1 (proj2 Hd)); reflexivity).
    destruct d. cbn in Huri, Hmax. subst. reflexivity.
  - tauto.
Defined.

(** ** The collaborators of the examples *)

Example parse_with_path :
  Url.parse "https://a.example/x" = Some Ex.a_example.
Proof. reflexivity. Qed.

Example parse_with_port :
  Url.parse "http://P.example:8080" = Some Ex.p_example.
Proof. reflexivity. Qed.

Example parse_default_port :
  Url.parse "https://t.example:443/a?b=1"
  = Some (Url.mk "https:" "t.example" "" "/a" "?b=1").
Proof. reflexivity. Qed.

Example parse_relative : Url.parse "/" = None.
Proof. reflexivity. Qed.

Example base64_no_padding : Base64.encode (JsString.utf8 "user:pass") = "dXNlcjpwYXNz".
Proof. reflexivity. Qed.

Example base64_padding : Base64.encode (JsString.utf8 "ab") = "YWI=".
Proof. reflexivity. Qed.

Example budget_is_floored_and_clamped :
  getMaxRedirects (Options.of_maxRedirects (Num (7 # 2))) = Number.of_Z 3
  /\ getMaxRedirects (Options.of_maxRedirects (Num (-3 # 1))) = Number.of_Z 0
  /\ getMaxRedirects (Options.of_maxRedirects Infinity) = Infinity
  /\ getMaxRedirects Options.empty = Number.of_Z 0.
Proof. repeat split. Qed.

(** * Further properties of the client *)

Section Further.

Context (ext : Externals).

(** ** Option layers *)

Lemma spread1_assoc {A : Type} (a b c : prop A) :
  spread1 a (spread1 b c) = spread1 (spread1 a b) c.
Proof. destruct c; reflexivity. Qed.

Lemma spread1_missing_l {A : Type} (a : prop A) : spread1 Missing a = a.
Proof. destruct a; reflexivity. Qed.

Lemma spread_assoc (a b c : Options.t) :
  Options.spread a (Options.spread b c) = Options.spread (Options.spread a b) c.
Proof. unfold Options.spread. cbn. rewrite !spread1_assoc. reflexivity. Qed.

Lemma spread_empty_l (o : Options.t) : Options.spread Options.empty o = o.
Proof.
  destruct o. unfold Options.spread, Options.empty. cbn.
  rewrite !spread1_missing_l. reflexivity.
Qed.

Lemma spread_empty_r (o : Options.t) : Options.spread o Options.empty = o.
Proof. destruct o. reflexivity. Qed.

Lemma spread_uri_twice (opts : Options.t) (u v : URI) :
  Options.spread (Options.spread opts (Options.of_uri v)) (Options.of_uri u)
  = Options.spread opts (Options.of_uri u).
Proof. destruct opts. reflexivity. Qed.

(** X1: Wrapping an entry point twice is wrapping it once with the two layers of
    defaults spread over each other, the outer layer on top. *)
Theorem wrapWithDefaults_compose
  (fn : BaseRequestFunc) (inner outer : Options.t) (uri : target) (opts : Options.t) :
  wrapWithDefaults (wrapWithDefaults fn inner) outer uri opts
  = wrapWithDefaults fn (Options.spread inner outer) uri opts.
Proof.
  destruct uri as [u|o]; unfold wrapWithDefaults; rewrite spread_assoc; reflexivity.
Qed.

(** X2: With an options object as first argument, [_request] merges a second
    options object under it, while an entry point made by [wrapWithDefaults]
    does not look at its second argument; with a URI as first argument and
    empty defaults the wrapped entry point is [_request] itself. *)
Theorem second_argument_of_entry_points (defaults o opts : Options.t) (u : URI) :
  _request ext (Bag o) opts = _request ext (Bag (Options.spread opts o)) Options.empty
  /\ wrapWithDefaults (_request ext) defaults (Bag o) opts
     = _request ext (Bag (Options.spread defaults o)) Options.empty
  /\ wrapWithDefaults (_request ext) Options.empty (Positional u) opts
     = _request ext (Positional u) opts.
Proof.
  split; [|split].
  - unfold _request. rewrite spread_empty_l. reflexivity.
  - reflexivity.
  - cbn. rewrite spread_empty_l. reflexivity.
Qed.

(** X3: The URI given as first argument replaces any [uri] carried by the
    options or by the defaults of a wrapped entry point. *)
Theorem positional_uri_wins (defaults opts : Options.t) (u v w : URI) :
  _request ext (Positional u) (Options.spread opts (Options.of_uri v))
  = _request ext (Positional u) opts
  /\ request_defaults ext (Options.spread defaults (Options.of_uri w)) (Positional u)
       (Options.spread opts (Options.of_uri v))
     = request_defaults ext defaults (Positional u) opts.
Proof.
  split.
  - unfold _request. rewrite spread_uri_twice. reflexivity.
  - unfold request_defaults, wrapWithDefaults, _request.
    replace (Options.spread
               (Options.spread (Options.spread defaults (Options.of_uri w))
                  (Options.spread opts (Options.of_uri v))) (Options.of_uri u))
      with (Options.spread (Options.spread defaults opts) (Options.of_uri u)).
    + reflexivity.
    + destruct defaults, opts. cbn. reflexivity.
Qed.

(** ** The method *)

Lemma sanitizeOpts_method (opts : Options.t) (log : list event) (o : RequestOptions.t) :
  sanitizeOpts ext (inl opts) = (log, inr o) ->
  RequestOptions.method o
  = match defined (Options.method opts) with
    | Some m => if JsString.truthy m then m else "GET"
    | None => "GET"
    end.
Proof.
  unfold sanitizeOpts. destruct (defined (Options.uri opts)) as [u|]; [|discriminate].
  intros H. apply bind_inr in H. destruct H as (l1 & uri & l2 & _ & H & _).
  apply bind_inr in H. destruct H as (l3 & proxy & l4 & _ & H & _).
  injection H as _ <-. reflexivity.
Qed.

Lemma apply_method (o : RequestOptions.t) :
  RequestOptions.method (apply_query ext (apply_path o)) = RequestOptions.method o.
Proof.
  unfold apply_query, apply_path.
  destruct (RequestOptions.path o) as [p|]; [destruct (JsString.truthy p)|];
    cbn; destruct (RequestOptions.qs o); cbn; try reflexivity;
    destruct (RequestOptions.query o); reflexivity.
Qed.

(** X4: The verb of [request.get], [request.post], ... is a default: a method in
    the per-call options replaces it, a per-call [method: undefined] or
    [method: ''] turns the request into a GET, and the method of a descriptor
    is never empty. *)
Theorem verb_is_a_default
  (verb : string) (uri : URI) (opts : Options.t) (log : list event) (conn : Connection) :
  methodRequests ext verb (Positional uri) opts = (log, inr conn) ->
  RequestOptions.method (descriptor conn)
  = match Options.method opts with
    | Missing => if JsString.truthy verb then verb else "GET"
    | Undefined => "GET"
    | Value m => if JsString.truthy m then m else "GET"
    end
  /\ RequestOptions.method (descriptor conn) <> "".
Proof.
  intros H. apply _request_descriptor in H. destruct H as (o & Hs & ->).
  rewrite apply_method. rewrite (sanitizeOpts_method _ _ _ Hs). cbn.
  destruct (Options.method opts) as [| |m]; cbn.
  - destruct verb; cbn; split; [reflexivity|discriminate|reflexivity|discriminate].
  - split; [reflexivity|discriminate].
  - destruct m; cbn; split; [reflexivity|discriminate|reflexivity|discriminate].
Qed.

(** ** The redirect budget of a descriptor *)

Lemma max0_floor_cases (n : number) :
  match Number.max0 (Number.floor n) with
  | Num q => exists z : Z, (0 <= z)%Z /\ q = inject_Z z
  | Infinity => True
  | NegInfinity => False
  | NaN => n = NaN
  end.
Proof.
  destruct n as [q| | |]; cbn; auto.
  - destruct (Qle_bool (inject_Z (Qfloor q)) 0) eqn:E.
    + exists 0%Z. split; [lia|reflexivity].
    + exists (Qfloor q). split; [|reflexivity].
      apply Qle_bool_false_lt in E. unfold Qlt in E. cbn in E. lia.
  - exists 0%Z. split; [lia|reflexivity].
Qed.

Lemma max0_floor_idempotent (n : number) :
  Number.max0 (Number.floor (Number.max0 (Number.floor n)))
  = Number.max0 (Number.floor n).
Proof.
  pose proof (max0_floor_cases n) as H.
  destruct (Number.max0 (Number.floor n)) as [q| | |]; try reflexivity; [|contradiction].
  destruct H as (z & Hz & ->).
  cbn [Number.floor]. rewrite Qfloor_Z. unfold Number.of_Z, Number.max0.
  destruct (Qle_bool (inject_Z z) 0) eqn:E; [|reflexivity].
  apply Qle_bool_iff in E. unfold Qle in E. cbn in E.
  assert (z = 0%Z) as -> by lia. reflexivity.
Qed.

(** X5: [getMaxRedirects] returns a whole number that is not negative, or
    Infinity, or NaN (only when [maxRedirects] itself is NaN); it never
    returns a fraction, a negative number or -Infinity. *)
Theorem getMaxRedirects_range (opts : Options.t) :
  match getMaxRedirects opts with
  | Num q => exists z : Z, (0 <= z)%Z /\ q = inject_Z z
  | Infinity => True
  | NegInfinity => False
  | NaN => defined (Options.maxRedirects opts) = Some NaN
  end.
Proof.
  unfold getMaxRedirects.
  destruct (defined (Options.maxRedirects opts)) as [[q| | |]|]; cbn; auto.
  - destruct (Qle_bool (inject_Z (Qfloor q)) 0) eqn:E.
    + exists 0%Z. split; [lia|reflexivity].
    + exists (Qfloor q). split; [|reflexivity].
      apply Qle_bool_false_lt in E. unfold Qlt in E. cbn in E. lia.
  - exists 0%Z. split; [lia|reflexivity].
  - destruct (defined (Options.followAllRedirects opts)) as [[|]|]; cbn; auto;
      exists 0%Z; (split; [lia|reflexivity]).
Qed.

(** X6: Normalising a budget that [getMaxRedirects] produced changes nothing:
    what a descriptor carries goes unchanged through [maxRedirects] again. *)
Theorem getMaxRedirects_idempotent (opts : Options.t) :
  getMaxRedirects (Options.of_maxRedirects (getMaxRedirects opts)) = getMaxRedirects opts.
Proof.
  change (Number.max0 (Number.floor (getMaxRedirects opts)) = getMaxRedirects opts).
  unfold getMaxRedirects.
  destruct (defined (Options.maxRedirects opts)) as [n|].
  - apply max0_floor_idempotent.
  - destruct (defined (Options.followAllRedirects opts)) as [[|]|]; reflexivity.
Qed.

(** ** Redirects, for every script *)

Lemma follows_cases (options : RequestOptions.t) (r : Reply) :
  follows options (incoming r)
  = Number.gt0 (RequestOptions.maxRedirects options) && redirect_status r.
Proof.
  unfold follows, redirect_status. cbn [incoming statusCode]. f_equal.
  destruct (status r) as [c|]; [|reflexivity].
  destruct (Z.eqb c 0) eqn:E; [|reflexivity].
  apply Z.eqb_eq in E. subst c. reflexivity.
Qed.

Lemma reissue_drains_first (target : string) (budget : number) (rest : list signal) :
  exists log, fst (reissue ext target budget rest) = RespDrain :: log.
Proof.
  unfold reissue. destruct (exchange ext _ rest) as [log res]. exists log. reflexivity.
Qed.

(** X7: However the transport answers, a descriptor with [maxRedirects = N]
    follows at most N redirects and issues at most N follow-up requests. *)
Theorem redirects_never_exceed_budget (script : list signal) :
  forall (options : RequestOptions.t) (N : nat),
    RequestOptions.maxRedirects options = Number.of_nat N ->
    drains (fst (responsePromise ext options script)) <= N
    /\ List.length (requests (fst (responsePromise ext options script))) <= N.
Proof.
  induction script as [|sig rest IH]; intros options N Hmax.
  - cbn. lia.
  - destruct sig as [r|err]; [|cbn; lia].
    destruct (follows options (incoming r)) eqn:Hf.
    + destruct N as [|n].
      { rewrite follows_cases, Hmax in Hf. discriminate Hf. }
      rewrite (responsePromise_follow _ _ _ _ Hf).
      set (target := qualifiedRedirection _ _).
      destruct (new_URL ext target) as [u|] eqn:Hu;
        [|rewrite (reissue_invalid _ _ _ _ Hu); cbn; lia].
      destruct (supported (Url.protocol u)) eqn:Hs;
        [|rewrite (reissue_unsupported _ _ _ _ _ Hu Hs); cbn; lia].
      rewrite (reissue_direct _ _ _ _ _ Hu Hs). cbn [fst].
      rewrite drains_reissue, requests_reissue. cbn [List.length].
      destruct (IH (redirected_descriptor u (Number.pred (RequestOptions.maxRedirects options))) n)
        as [H1 H2].
      { cbn [redirected_descriptor RequestOptions.maxRedirects]. rewrite Hmax.
        apply budget_step. reflexivity. }
      lia.
    + rewrite (responsePromise_terminal _ _ _ _ Hf). cbn. lia.
Qed.

(** X8: With an unbounded budget (what [followAllRedirects] gives) a chain of
    redirects of any length is followed to its end: the first response that
    is not a redirect is the terminal one and carries the whole trail. *)
Theorem unbounded_budget_follows_every_redirect (chain : list Reply) :
  forall (options : RequestOptions.t) (last : Reply) (rest : list signal),
    RequestOptions.maxRedirects options = Infinity ->
    redirect_chain ext (RequestOptions.uri options) chain = true ->
    redirect_status last = false ->
    exists log,
      responsePromise ext options (List.map Answer (chain ++ [last]) ++ rest)
      = (log,
         Response {| statusCode := status last;
                     resp_headers := reply_headers last;
                     redirects := match chain with
                                  | [] => None
                                  | _ => Some (locations ext (RequestOptions.uri options) chain)
                                  end |})
      /\ drains log = List.length chain
      /\ List.length (requests log) = List.length chain.
Proof.
  induction chain as [|r chain IH]; intros options last rest Hmax Hfol Hlast.
  - exists []. cbn [List.app List.map].
    rewrite responsePromise_terminal; [auto|].
    rewrite follows_cases, Hlast. apply andb_false_r.
  - cbn [redirect_chain] in Hfol.
    apply andb_true_iff in Hfol. destruct Hfol as [Hr Hfol].
    set (target := qualifiedRedirection (Url.origin (RequestOptions.uri options))
                     (reply_headers r !! "location")) in *.
    destruct (new_URL ext target) as [u|] eqn:Hu; [|discriminate Hfol].
    apply andb_true_iff in Hfol. destruct Hfol as [Hs Hfol].
    cbn [List.app List.map].
    rewrite responsePromise_follow by (rewrite follows_cases, Hmax, Hr; reflexivity).
    fold target. rewrite (reissue_direct _ _ _ _ _ Hu Hs).
    destruct (IH (redirected_descriptor u (Number.pred (RequestOptions.maxRedirects options)))
                last rest) as (log & Hrun & Hdr & Hreq).
    + cbn [redirected_descriptor RequestOptions.maxRedirects]. rewrite Hmax. reflexivity.
    + exact Hfol.
    + exact Hlast.
    + rewrite Hrun. cbn [fst snd]. eexists. split; [|split].
      * f_equal. cbn [listen]. f_equal. unfold prepend.
        cbn [statusCode resp_headers redirects].
        f_equal. cbn [locations]. fold target. rewrite Hu.
        cbn [redirected_descriptor RequestOptions.uri].
        destruct chain; reflexivity.
      * rewrite drains_reissue, Hdr. reflexivity.
      * rewrite requests_reissue. cbn [List.length]. rewrite Hreq. reflexivity.
Qed.

(** X9: The first response is handed on as it is, with nothing drained and
    nothing requested, exactly when the budget is not positive (0 or NaN) or
    the status is outside 301-303; 300, 304, 307 and 308 are never followed. *)
Theorem terminal_iff_not_followed
  (options : RequestOptions.t) (r : Reply) (rest : list signal) :
  responsePromise ext options (Answer r :: rest) = ([], Response (incoming r))
  <-> Number.gt0 (RequestOptions.maxRedirects options) = false \/ redirect_status r = false.
Proof.
  split.
  - intros Hrun. destruct (follows options (incoming r)) eqn:Hf.
    + rewrite (responsePromise_follow _ _ _ _ Hf) in Hrun.
      destruct (reissue_drains_first
                  (qualifiedRedirection (Url.origin (RequestOptions.uri options))
                     (reply_headers r !! "location"))
                  (Number.pred (RequestOptions.maxRedirects options)) rest) as (log & Hlog).
      rewrite Hrun in Hlog. discriminate Hlog.
    + rewrite follows_cases in Hf. apply andb_false_iff in Hf. exact Hf.
  - intros H. apply responsePromise_terminal. rewrite follows_cases.
    apply andb_false_iff. exact H.
Qed.

(** X10: A redirect whose resolved location does not parse, or parses to a URI
    that is neither http nor https, is not followed: the old response has
    been drained, no request is issued, and the exception of [request.get]
    escapes from the response listener instead of reaching the connection. *)
Theorem redirect_to_unusable_location
  (options : RequestOptions.t) (r : Reply) (rest : list signal) :
  follows options (incoming r) = true ->
  (new_URL ext (qualifiedRedirection (Url.origin (RequestOptions.uri options))
                  (reply_headers r !! "location")) = None ->
   responsePromise ext options (Answer r :: rest) = ([RespDrain], Uncaught InvalidURL))
  /\ (forall u : Url.t,
        new_URL ext (qualifiedRedirection (Url.origin (RequestOptions.uri options))
                       (reply_headers r !! "location")) = Some u ->
        supported (Url.protocol u) = false ->
        responsePromise ext options (Answer r :: rest)
        = ([RespDrain], Uncaught ProtocolNotSupported)).
Proof.
  intros Hf. rewrite (responsePromise_follow _ _ _ _ Hf). split.
  - intros Hu. apply (reissue_invalid _ _ _ _ Hu).
  - intros u Hu Hs. apply (reissue_unsupported _ _ _ _ _ Hu Hs).
Qed.

(** ** The synchronous call, step by step *)

Lemma bind_inl {A B : Type} (m : M A) (f : A -> M B) (log : list event) (e : error) :
  bind m f = (log, inl e) ->
  m = (log, inl e)
  \/ exists l1 a l2, m = (l1, inr a) /\ f a = (l2, inl e) /\ log = l1 ++ l2.
Proof.
  unfold bind. destruct m as [l1 [e1|a]].
  - intros H. injection H as <- <-. left. reflexivity.
  - destruct (f a) as [l2 r] eqn:Hf. intros H. injection H as <- ->.
    right. exists l1, a, l2. auto.
Qed.

Lemma uriToURL_errors (uri : URI) (log : list event) (e : error) :
  uriToURL ext uri = (log, inl e) -> e = InvalidURL.
Proof.
  destruct uri as [s|u]; cbn; [|discriminate].
  destruct (new_URL ext s); cbn; [discriminate|].
  intros H. injection H as _ <-. reflexivity.
Qed.

Lemma sanitizeProxy_errors (p : prop ProxyOption) (log : list event) (e : error) :
  sanitizeProxy ext p = (log, inl e) -> e = InvalidURL.
Proof.
  unfold sanitizeProxy. destruct (defined p) as [[[s|u]|q]|]; try discriminate.
  - intros H. apply bind_inl in H. destruct H as [H|(? & ? & ? & _ & H & _)].
    + apply (uriToURL_errors _ _ _ H).
    + discriminate H.
  - intros H. apply bind_inl in H. destruct H as [H|(? & ? & ? & _ & H & _)].
    + apply (uriToURL_errors _ _ _ H).
    + discriminate H.
Qed.

Lemma sanitizeOpts_errors (arg : Options.t + string) (log : list event) (e : error) :
  sanitizeOpts ext arg = (log, inl e) -> e = UriMustBeDefined \/ e = InvalidURL.
Proof.
  unfold sanitizeOpts. destruct (defined (Options.uri _)) as [u|].
  - intros H. right.
    apply bind_inl in H. destruct H as [H|(? & ? & ? & _ & H & _)].
    + apply (uriToURL_errors _ _ _ H).
    + apply bind_inl in H. destruct H as [H|(? & ? & ? & _ & H & _)].
      * apply (sanitizeProxy_errors _ _ _ H).
      * discriminate H.
  - intros H. injection H as _ <-. left. reflexivity.
Qed.

(** The connector chosen by [_request] either throws 'protocol not
    supported' before calling anything, or makes exactly one call: the
    CONNECT request when the descriptor has a proxy, the transport request
    otherwise. *)
Lemma connector_cases (options : RequestOptions.t) :
  match RequestOptions.proxy options with
  | Some _ => createProxiedConnection ext options
  | None => createConnection ext options
  end = ([], inl ProtocolNotSupported)
  \/ exists ev conn,
       match RequestOptions.proxy options with
       | Some _ => createProxiedConnection ext options
       | None => createConnection ext options
       end = ([ev], inr conn)
       /\ descriptor conn = options
       /\ match RequestOptions.proxy options with
          | Some proxy =>
              via conn = Proxied
              /\ exists s args,
                   ev = HttpConnect s args
                   /\ con_headers args = connect_headers ext options proxy
                   /\ con_tls args = default [] (Proxy.tls proxy)
          | None =>
              via conn = Direct
              /\ exists s args,
                   ev = HttpRequest s (RequestOptions.uri options) args
                   /\ req_headers args = target_headers ext options
                   /\ req_method args = upper_method options
          end.
Proof.
  destruct (RequestOptions.proxy options) as [proxy|] eqn:Hp.
  - unfold createProxiedConnection. rewrite Hp.
    destruct (supported (Url.protocol (Proxy.uri proxy))) eqn:Hsp;
      [|rewrite (httpLib_unsupported _ Hsp); left; reflexivity].
    rewrite (httpLib_supported _ Hsp). cbn.
    destruct (supported (Url.protocol (RequestOptions.uri options))) eqn:Hst;
      [|rewrite (httpLib_unsupported _ Hst); left; reflexivity].
    rewrite (httpLib_supported _ Hst). cbn.
    right. eexists. eexists. split; [reflexivity|]. cbn. eauto 10.
  - unfold createConnection.
    destruct (supported (Url.protocol (RequestOptions.uri options))) eqn:Hst;
      [|rewrite (httpLib_unsupported _ Hst); left; reflexivity].
    rewrite (httpLib_supported _ Hst). cbn.
    right. eexists. eexists. split; [reflexivity|]. cbn. eauto 10.
Qed.

Lemma writeBody_cases (options : RequestOptions.t) :
  (exists log, writeBody ext options = (log, inr tt))
  \/ (writeBody ext options
      = ([ConnSetHeader "Content-Type" (HString "application/json; charset=utf-8")],
         inl TypeError)
      /\ exists body,
           RequestOptions.body options = Some body /\ JSON_stringify ext body = None).
Proof.
  unfold writeBody.
  destruct (is_get options); [left; eexists; reflexivity|].
  destruct (RequestOptions.body options) as [body|].
  - destruct (Value.is_string_or_buffer body); [left; eexists; reflexivity|].
    destruct (Value.is_byte_stream body); [left; eexists; reflexivity|].
    destruct (JSON_stringify ext body) eqn:Hj; [left; eexists; reflexivity|].
    right. split; [reflexivity|]. exists body. auto.
  - destruct (option_truthy (RequestOptions.form options)); [left; eexists; reflexivity|].
    destruct (option_truthy (RequestOptions.formData options)); left; eexists; reflexivity.
Qed.

Lemma writeBody_no_transport_call (options : RequestOptions.t) :
  requests (fst (writeBody ext options)) = []
  /\ connects (fst (writeBody ext options)) = [].
Proof.
  unfold writeBody.
  destruct (is_get options); [split; reflexivity|].
  destruct (RequestOptions.body options) as [body|].
  - destruct (Value.is_string_or_buffer body); [split; reflexivity|].
    destruct (Value.is_byte_stream body); [split; reflexivity|].
    destruct (JSON_stringify ext body); split; reflexivity.
  - destruct (option_truthy (RequestOptions.form options)); [split; reflexivity|].
    destruct (option_truthy (RequestOptions.formData options)); split; reflexivity.
Qed.

(** The shape of every run of [_request]: it throws with an empty log, or it
    has made the one call of its connector and then run the body encoder. *)
Lemma _request_log (uri : target) (opts : Options.t) (log : list event)
  (r : error + Connection) :
  _request ext uri opts = (log, r) ->
  (log = []
   /\ (r = inl UriMustBeDefined \/ r = inl InvalidURL \/ r = inl ProtocolNotSupported))
  \/ exists o ev conn,
       sanitizeOpts ext
         (inl match uri with
              | Positional u => Options.spread opts (Options.of_uri u)
              | Bag b => Options.spread opts b
              end) = ([], inr o)
       /\ match RequestOptions.proxy (apply_query ext (apply_path o)) with
          | Some _ => createProxiedConnection ext (apply_query ext (apply_path o))
          | None => createConnection ext (apply_query ext (apply_path o))
          end = ([ev], inr conn)
       /\ log = ev :: fst (writeBody ext (apply_query ext (apply_path o)))
       /\ r = match snd (writeBody ext (apply_query ext (apply_path o))) with
              | inl e => inl e
              | inr _ => inr conn
              end.
Proof.
  unfold _request.
  set (merged := match uri with
                 | Positional u => Options.spread opts (Options.of_uri u)
                 | Bag b => Options.spread opts b
                 end).
  pose proof (sanitizeOpts_log ext (inl merged)) as Hl.
  destruct (sanitizeOpts ext (inl merged)) as [l1 [e|o]] eqn:Hs; cbn in Hl; subst l1.
  - cbn. intros H. injection H as <- <-. left. split; [reflexivity|].
    destruct (sanitizeOpts_errors _ _ _ Hs) as [-> | ->]; auto.
  - cbn [bind]. set (options := apply_query ext (apply_path o)).
    destruct (connector_cases options) as [Hc|(ev & conn & Hc & _)]; rewrite Hc.
    + cbn. intros H. injection H as <- <-. left. auto.
    + cbn [bind]. destruct (writeBody ext options) as [l4 [e|[]]] eqn:Hw; cbn.
      * intros H. injection H as <- <-. right. exists o, ev, conn.
        fold options. rewrite Hw. auto.
      * intros H. injection H as <- <-. right. exists o, ev, conn.
        fold options. rewrite Hw, app_nil_r. auto.
Qed.

Lemma writeBody_no_request_args (options : RequestOptions.t) :
  request_args (fst (writeBody ext options)) = [].
Proof.
  unfold writeBody.
  destruct (is_get options); [reflexivity|].
  destruct (RequestOptions.body options) as [body|].
  - destruct (Value.is_string_or_buffer body); [reflexivity|].
    destruct (Value.is_byte_stream body); [reflexivity|].
    destruct (JSON_stringify ext body); reflexivity.
  - destruct (option_truthy (RequestOptions.form options)); [reflexivity|].
    destruct (option_truthy (RequestOptions.formData options)); reflexivity.
Qed.

(** What the one call of the connector is, given how the run went on. *)
Lemma connector_call (options : RequestOptions.t) (ev : event) (conn : Connection) :
  match RequestOptions.proxy options with
  | Some _ => createProxiedConnection ext options
  | None => createConnection ext options
  end = ([ev], inr conn) ->
  descriptor conn = options
  /\ match RequestOptions.proxy options with
     | Some proxy =>
         via conn = Proxied
         /\ exists s args,
              ev = HttpConnect s args
              /\ con_headers args = connect_headers ext options proxy
              /\ con_tls args = default [] (Proxy.tls proxy)
     | None =>
         via conn = Direct
         /\ exists s args,
              ev = HttpRequest s (RequestOptions.uri options) args
              /\ req_headers args = target_headers ext options
              /\ req_method args = upper_method options
     end.
Proof.
  intros Hc. destruct (connector_cases options) as [H|(ev' & conn' & H & Hd & Hv)].
  - rewrite Hc in H. discriminate H.
  - rewrite Hc in H. injection H as <- <-. auto.
Qed.

Lemma one_transport_call (options : RequestOptions.t) (ev : event) (conn : Connection) :
  match RequestOptions.proxy options with
  | Some _ => createProxiedConnection ext options
  | None => createConnection ext options
  end = ([ev], inr conn) ->
  List.length (requests [ev]) + List.length (connects [ev]) = 1.
Proof.
  intros Hc. destruct (connector_call _ _ _ Hc) as [_ H].
  destruct (RequestOptions.proxy options);
    destruct H as (_ & s & args & -> & _); reflexivity.
Qed.

(** ** Exceptions thrown to the caller *)

(** X11: When [_request] throws one of the errors of the two source files -
    'uri must be defined', the invalid-URL error of [uriToURL], 'protocol
    not supported' - it has opened nothing and touched no connection; the
    'unreachable' error of [createProxiedConnection] is never thrown.
    (Exceptions raised inside [http.request] or [JSON.stringify] are not
    what this is about.) *)
Theorem own_errors_precede_the_transport
  (uri : target) (opts : Options.t) (log : list event) (e : error) :
  _request ext uri opts = (log, inl e) ->
  e <> Unreachable
  /\ (e = UriMustBeDefined \/ e = InvalidURL \/ e = ProtocolNotSupported -> log = []).
Proof.
  intros H. apply _request_log in H.
  destruct H as [[-> H]|(o & ev & conn & Hs & Hc & -> & Hr)].
  - split; [|reflexivity].
    destruct H as [H|[H|H]]; injection H as ->; discriminate.
  - destruct (writeBody_cases (apply_query ext (apply_path o)))
      as [[l Hw]|[Hw _]]; rewrite Hw in Hr; cbn in Hr.
    + discriminate Hr.
    + injection Hr as ->. split; [discriminate|].
      intros [H|[H|H]]; discriminate H.
Qed.

(** ** Requests through a proxy *)

Lemma apply_proxy (o : RequestOptions.t) :
  RequestOptions.proxy (apply_query ext (apply_path o)) = RequestOptions.proxy o.
Proof.
  unfold apply_query, apply_path.
  destruct (RequestOptions.path o) as [p|]; [destruct (JsString.truthy p)|];
    cbn; destruct (RequestOptions.qs o); cbn; try reflexivity;
    destruct (RequestOptions.query o); reflexivity.
Qed.

(** X12: A request sent through a proxy never follows a redirect: no direct
    transport request is ever issued, nothing is drained, and the response of
    the tunnelled request is emitted as it is, without a trail, whatever its
    status and whatever [maxRedirects] says. *)
Theorem proxied_request_follows_no_redirect
  (uri : target) (opts : Options.t) (log : list event) (conn : Connection)
  (script : list signal) :
  _request ext uri opts = (log, inr conn) ->
  RequestOptions.proxy (descriptor conn) <> None ->
  via conn = Proxied
  /\ requests log = []
  /\ drains (fst (settle ext conn script)) = 0
  /\ requests (fst (settle ext conn script)) = []
  /\ (forall resp, snd (settle ext conn script) = Response resp -> redirects resp = None)
  /\ (forall c r rest,
        script = Answer c :: Answer r :: rest ->
        snd (settle ext conn script) = Response (incoming r)).
Proof.
  intros H Hp. apply _request_log in H.
  destruct H as [[_ H]|(o & ev & conn' & Hs & Hc & -> & Hr)].
  { destruct H as [H|[H|H]]; discriminate H. }
  set (options := apply_query ext (apply_path o)) in *.
  assert (conn' = conn) as ->.
  { destruct (snd (writeBody ext options)); [discriminate Hr|]. injection Hr as ->. reflexivity. }
  destruct (connector_call _ _ _ Hc) as [Hd Hv]. rewrite Hd in Hp.
  destruct (RequestOptions.proxy options) as [proxy|]; [|contradiction].
  destruct Hv as (Hv & s & args & -> & _).
  split; [exact Hv|]. split.
  { cbn. apply (proj1 (writeBody_no_transport_call options)). }
  unfold settle. rewrite Hv. unfold tunnelled.
  destruct script as [|[c|err] [|[r|err'] rest]]; cbn; repeat split;
    try reflexivity; try discriminate.
  - intros resp H. injection H as <-. reflexivity.
  - intros c' r' rest' H. injection H as _ -> _. reflexivity.
Qed.

Lemma sanitizeOpts_proxy_uri
  (opts : Options.t) (pu : URI) (log : list event) (o : RequestOptions.t) :
  sanitizeOpts ext (inl opts) = (log, inr o) ->
  defined (Options.proxy opts) = Some (ProxyUri pu) ->
  exists parsed, RequestOptions.proxy o = Some (Proxy.mk parsed None None None).
Proof.
  unfold sanitizeOpts. destruct (defined (Options.uri opts)) as [u|]; [|discriminate].
  intros H Hp. apply bind_inr in H. destruct H as (l1 & uri & l2 & _ & H & _).
  apply bind_inr in H. destruct H as (l3 & proxy & l4 & Hproxy & H & _).
  injection H as _ <-. cbn.
  unfold sanitizeProxy in Hproxy. rewrite Hp in Hproxy.
  destruct pu as [s|parsed].
  - apply bind_inr in Hproxy. destruct Hproxy as (? & parsed & ? & _ & H & _).
    injection H as _ <-. eauto.
  - injection Hproxy as _ <-. eauto.
Qed.

(** X13: A proxy given as a bare URI (a string or a URL) is used without
    credentials and without TLS options: the CONNECT request carries no
    Proxy-Authorization header, also when the URI itself names a user. *)
Theorem proxy_uri_carries_no_credentials
  (u pu : URI) (opts : Options.t) (log : list event) (r : error + Connection) :
  defined (Options.proxy opts) = Some (ProxyUri pu) ->
  _request ext (Positional u) opts = (log, r) ->
  Forall (fun args => con_headers args !! "Proxy-Authorization" = None /\ con_tls args = [])
    (connects log)
  /\ requests log = [].
Proof.
  intros Hp H. apply _request_log in H.
  destruct H as [[-> _]|(o & ev & conn & Hs & Hc & -> & _)].
  { split; [constructor|reflexivity]. }
  destruct (sanitizeOpts_proxy_uri _ pu _ _ Hs) as (parsed & Hproxy).
  { destruct opts. cbn in *. exact Hp. }
  set (options := apply_query ext (apply_path o)) in *.
  destruct (connector_call _ _ _ Hc) as [_ Hv].
  unfold options in Hv at 1. rewrite apply_proxy, Hproxy in Hv.
  destruct Hv as (_ & s & args & -> & Hh & Ht).
  destruct (writeBody_no_transport_call options) as [Hreq Hcon].
  split.
  - cbn. fold (connects (fst (writeBody ext options))). rewrite Hcon.
    constructor; [|constructor]. split.
    + rewrite Hh, connect_headers_auth. reflexivity.
    + rewrite Ht. reflexivity.
  - cbn. exact Hreq.
Qed.

(** ** Bodies that are never written *)

(** X14: A call that names no method, an empty one, or GET in any letter case
    writes no body: whatever [body], [form] or [formData] hold, the call opens
    its request and ends the connection at once, setting no header. *)
Theorem get_writes_no_body
  (u : URI) (opts : Options.t) (log : list event) (conn : Connection) :
  _request ext (Positional u) opts = (log, inr conn) ->
  (forall m, defined (Options.method opts) = Some m ->
             m = "" \/ JsString.toLowerCase m = "get") ->
  exists ev,
    log = [ev; ConnEnd None]
    /\ List.length (requests [ev]) + List.length (connects [ev]) = 1.
Proof.
  intros H Hm. apply _request_log in H.
  destruct H as [[_ H]|(o & ev & conn' & Hs & Hc & -> & _)].
  { destruct H as [H|[H|H]]; discriminate H. }
  exists ev. split; [|apply (one_transport_call _ _ _ Hc)].
  f_equal.
  assert (Hget : is_get (apply_query ext (apply_path o)) = true).
  { unfold is_get. rewrite apply_method, (sanitizeOpts_method _ _ _ Hs).
    replace (Options.method (Options.spread opts (Options.of_uri u)))
      with (Options.method opts) by (destruct opts; reflexivity).
    destruct (defined (Options.method opts)) as [m|]; [|reflexivity].
    destruct (Hm m eq_refl) as [-> | Hlow]; [reflexivity|].
    destruct m as [|c m]; [discriminate Hlow|].
    cbn [JsString.truthy negb orb]. rewrite Hlow. reflexivity. }
  rewrite (writeBody_get _ _ Hget). reflexivity.
Qed.

(** ** What the body encoder announces *)

(** X15: Whenever the encoder writes a chunk it has announced that chunk's
    [.length] as Content-Length; when it pipes a stream it sets no
    Content-Length; and ending without a chunk is all it does on a GET. *)
Theorem content_length_is_length_of_chunk (options : RequestOptions.t) :
  (forall chunk,
      In (ConnEnd (Some chunk)) (fst (writeBody ext options)) ->
      In (ConnSetHeader "Content-Length" (HNumber (Value.length chunk)))
        (fst (writeBody ext options)))
  /\ (forall src,
        In (ConnPipe src) (fst (writeBody ext options)) ->
        sets_header "Content-Length" (fst (writeBody ext options)) = false)
  /\ (In (ConnEnd None) (fst (writeBody ext options)) ->
      writeBody ext options = ([ConnEnd None], inr tt)).
Proof.
  unfold writeBody.
  destruct (is_get options).
  { cbn. repeat split; intros; intuition discriminate. }
  destruct (RequestOptions.body options) as [body|].
  - destruct (Value.is_string_or_buffer body).
    { cbn. repeat split; intros; intuition (try discriminate).
      match goal with H : ConnEnd _ = ConnEnd _ |- _ => injection H as <- end. auto. }
    destruct (Value.is_byte_stream body).
    { cbn. repeat split; intros; intuition discriminate. }
    destruct (JSON_stringify ext body) as [payload|].
    + cbn. repeat split; intros; intuition (try discriminate).
      match goal with H : ConnEnd _ = ConnEnd _ |- _ => injection H as <- end. auto.
    + cbn. repeat split; intros; intuition discriminate.
  - destruct (option_truthy (RequestOptions.form options)).
    { cbn. repeat split; intros; intuition (try discriminate).
      match goal with H : ConnEnd _ = ConnEnd _ |- _ => injection H as <- end. auto. }
    destruct (option_truthy (RequestOptions.formData options)).
    + cbn. repeat split; intros; intuition discriminate.
    + cbn. repeat split; intros; intuition discriminate.
Qed.

(** ** Headers on the wire *)

Lemma target_headers_lookup (options : RequestOptions.t) (k : string) :
  target_headers ext options !! k
  = match RequestOptions.headers options !! k with
    | Some h => Some h
    | None => if decide (k = "User-Agent") then Some (HOne (defaultUserAgent ext)) else None
    end.
Proof.
  unfold target_headers. rewrite lookup_union.
  destruct (RequestOptions.headers options !! k) as [h|].
  - destruct ({[ "User-Agent" := HOne (defaultUserAgent ext) ]} !! k); reflexivity.
  - case_decide as Hk.
    + subst k. rewrite lookup_singleton_eq. reflexivity.
    + rewrite lookup_singleton_ne by congruence. reflexivity.
Qed.

Lemma connect_headers_lookup (options : RequestOptions.t) (proxy : Proxy.t) (k : string) :
  k <> "Proxy-Authorization" ->
  connect_headers ext options proxy !! k
  = if decide (k = "User-Agent")
    then Some match RequestOptions.headers options !! "user-agent" with
              | Some h => if header_truthy h then h else HOne (defaultUserAgent ext)
              | None => HOne (defaultUserAgent ext)
              end
    else if decide (k = "host") then Some (HOne (Url.host (RequestOptions.uri options)))
    else None.
Proof.
  intros Hk. unfold connect_headers.
  assert (Hbase : forall m : gmap string header,
             match proxyAuth proxy with
             | Some a => <[ "Proxy-Authorization" := HOne a ]> m
             | None => m
             end !! k = m !! k).
  { intros m. destruct (proxyAuth proxy); [|reflexivity].
    apply lookup_insert_ne. congruence. }
  rewrite Hbase.
  case_decide as Hua.
  - subst k. apply lookup_insert_eq.
  - rewrite lookup_insert_ne by congruence.
    case_decide as Hhost.
    + subst k. apply lookup_singleton_eq.
    + apply lookup_singleton_ne. congruence.
Qed.

(** X16: The CONNECT request sent to a proxy carries none of the caller's
    headers: its headers are [host] (the target's host), [User-Agent] and
    possibly [Proxy-Authorization], nothing else; its User-Agent is the
    caller's header under the lower-case key [user-agent] when that is
    truthy, and the default one otherwise. *)
Theorem connect_request_carries_no_caller_header
  (uri : target) (opts : Options.t) (log : list event) (conn : Connection) :
  _request ext uri opts = (log, inr conn) ->
  Forall (fun args =>
            forall k,
              k <> "Proxy-Authorization" ->
              con_headers args !! k
              = if decide (k = "User-Agent")
                then Some match RequestOptions.headers (descriptor conn) !! "user-agent" with
                          | Some h => if header_truthy h then h
                                      else HOne (defaultUserAgent ext)
                          | None => HOne (defaultUserAgent ext)
                          end
                else if decide (k = "host")
                     then Some (HOne (Url.host (RequestOptions.uri (descriptor conn))))
                     else None)
    (connects log).
Proof.
  intros H. apply _request_log in H.
  destruct H as [[_ H]|(o & ev & conn' & Hs & Hc & -> & Hr)].
  { destruct H as [H|[H|H]]; discriminate H. }
  set (options := apply_query ext (apply_path o)) in *.
  assert (conn' = conn) as ->.
  { destruct (snd (writeBody ext options)); [discriminate Hr|]. injection Hr as ->. reflexivity. }
  destruct (connector_call _ _ _ Hc) as [Hd Hv]. rewrite Hd.
  destruct (writeBody_no_transport_call options) as [_ Hcon].
  destruct (RequestOptions.proxy options) as [proxy|].
  - destruct Hv as (_ & s & args & -> & Hh & _).
    cbn. fold (connects (fst (writeBody ext options))). rewrite Hcon.
    constructor; [|constructor]. intros k Hk. rewrite Hh.
    apply (connect_headers_lookup _ _ _ Hk).
  - destruct Hv as (_ & s & args & -> & Hh & _).
    cbn. fold (connects (fst (writeBody ext options))). rewrite Hcon. constructor.
Qed.

(** ** The URI of a descriptor *)




(** ** Redirects are off by default *)

Lemma apply_maxRedirects (o : RequestOptions.t) :
  RequestOptions.maxRedirects (apply_query ext (apply_path o))
  = RequestOptions.maxRedirects o.
Proof.
  unfold apply_query, apply_path.
  destruct (RequestOptions.path o) as [p|]; [destruct (JsString.truthy p)|];
    cbn; destruct (RequestOptions.qs o); cbn; try reflexivity;
    destruct (RequestOptions.query o); reflexivity.
Qed.

(** X18: A direct request made without [maxRedirects] and without
    [followAllRedirects: true] follows no redirect: its first response is
    emitted as it is, whatever its status. *)
Theorem redirects_are_off_by_default
  (u : URI) (opts : Options.t) (log : list event) (conn : Connection)
  (r : Reply) (rest : list signal) :
  _request ext (Positional u) opts = (log, inr conn) ->
  defined (Options.maxRedirects opts) = None ->
  defined (Options.followAllRedirects opts) <> Some true ->
  via conn = Direct ->
  settle ext conn (Answer r :: rest) = ([], Response (incoming r)).
Proof.
  intros H Hmax Hall Hvia. apply _request_descriptor in H. destruct H as (o & Hs & Hd).
  unfold settle. rewrite Hvia, Hd.
  apply responsePromise_terminal. rewrite follows_cases, apply_maxRedirects.
  apply sanitizeOpts_fields in Hs. destruct Hs as (_ & _ & ->).
  unfold getMaxRedirects.
  replace (Options.maxRedirects (Options.spread opts (Options.of_uri u)))
    with (Options.maxRedirects opts) by (destruct opts; reflexivity).
  replace (Options.followAllRedirects (Options.spread opts (Options.of_uri u)))
    with (Options.followAllRedirects opts) by (destruct opts; reflexivity).
  rewrite Hmax.
  destruct (defined (Options.followAllRedirects opts)) as [[|]|]; try reflexivity.
  congruence.
Qed.

End Further.

(** * The further properties at concrete inputs *)

Lemma verb_is_a_default_witness :
  exists log conn,
    methodRequests Sample.node "post" (Positional (UriString "http://x/"))
      (Options.of_method "PUT") = (log, inr conn)
    /\ RequestOptions.method (descriptor conn) = "PUT"
    /\ RequestOptions.method (descriptor conn) <> "".
Proof.
  destruct (methodRequests Sample.node "post" (Positional (UriString "http://x/"))
              (Options.of_method "PUT")) as [log [e|conn]] eqn:H.
  - vm_compute in H. discriminate H.
  - exists log, conn. split; [reflexivity|].
    exact (verb_is_a_default Sample.node _ _ _ _ _ H).
Defined.

Lemma redirects_never_exceed_budget_witness :
  drains (fst (responsePromise Sample.node (Ex.plain "GET" Ex.a_example (Number.of_nat 1) None)
                 [Answer (Ex.moved 302 "/b"); Answer (Ex.moved 302 "/c");
                  Answer (Ex.moved 302 "/d")])) <= 1
  /\ List.length
       (requests (fst (responsePromise Sample.node
                         (Ex.plain "GET" Ex.a_example (Number.of_nat 1) None)
                         [Answer (Ex.moved 302 "/b"); Answer (Ex.moved 302 "/c");
                          Answer (Ex.moved 302 "/d")]))) <= 1.
Proof.
  apply (redirects_never_exceed_budget Sample.node
           [Answer (Ex.moved 302 "/b"); Answer (Ex.moved 302 "/c"); Answer (Ex.moved 302 "/d")]
           (Ex.plain "GET" Ex.a_example (Number.of_nat 1) None) 1).
  reflexivity.
Defined.

Lemma unbounded_budget_follows_every_redirect_witness :
  exists log,
    responsePromise Sample.node (Ex.plain "GET" Ex.a_example Infinity None)
      (List.map Answer (Ex.two_hops ++ [Ex.ok]) ++ [])
    = (log, Response {| statusCode := Some 200%Z;
                        resp_headers := ∅;
                        redirects := Some (locations Sample.node Ex.a_example Ex.two_hops) |})
    /\ drains log = 2
    /\ List.length (requests log) = 2.
Proof.
  apply (unbounded_budget_follows_every_redirect Sample.node Ex.two_hops
           (Ex.plain "GET" Ex.a_example Infinity None) Ex.ok []); reflexivity.
Defined.

Lemma terminal_iff_not_followed_witness :
  responsePromise Sample.node (Ex.plain "GET" Ex.a_example (Number.of_nat 5) None)
    [Answer (Ex.moved 307 "/b"); Answer Ex.ok]
  = ([], Response (incoming (Ex.moved 307 "/b"))).
Proof.
  apply (proj2 (terminal_iff_not_followed Sample.node
                  (Ex.plain "GET" Ex.a_example (Number.of_nat 5) None)
                  (Ex.moved 307 "/b") [Answer Ex.ok])).
  right. reflexivity.
Defined.

Lemma redirect_to_unusable_location_witness :
  responsePromise Sample.node (Ex.plain "GET" Ex.a_example (Number.of_nat 1) None)
    [Answer (Ex.moved 302 "next"); Answer Ex.ok]
  = ([RespDrain], Uncaught InvalidURL)
  /\ responsePromise Sample.node (Ex.plain "GET" Ex.a_example (Number.of_nat 1) None)
       [Answer (Ex.moved 302 "ftp://files.example/x"); Answer Ex.ok]
     = ([RespDrain], Uncaught ProtocolNotSupported).
Proof.
  split.
  - apply (proj1 (redirect_to_unusable_location Sample.node
                    (Ex.plain "GET" Ex.a_example (Number.of_nat 1) None)
                    (Ex.moved 302 "next") [Answer Ex.ok] eq_refl)).
    reflexivity.
  - apply (proj2 (redirect_to_unusable_location Sample.node
                    (Ex.plain "GET" Ex.a_example (Number.of_nat 1) None)
                    (Ex.moved 302 "ftp://files.example/x") [Answer Ex.ok] eq_refl)
             (Url.mk "ftp:" "files.example" "" "/x" "")); reflexivity.
Defined.

Lemma own_errors_precede_the_transport_witness :
  exists log,
    _request Sample.node (Positional (UriString "ftp://files.example/x"))
      (Options.spread (Options.of_method "post") (Options.of_body (VString "hello")))
    = (log, inl ProtocolNotSupported)
    /\ log = [].
Proof.
  destruct (_request Sample.node (Positional (UriString "ftp://files.example/x"))
              (Options.spread (Options.of_method "post") (Options.of_body (VString "hello"))))
    as [log r] eqn:H.
  assert (Hr : r = inl ProtocolNotSupported).
  { vm_compute in H. injection H as _ <-. reflexivity. }
  subst r. exists log. split; [reflexivity|].
  apply (proj2 (own_errors_precede_the_transport Sample.node _ _ _ _ H)).
  right. right. reflexivity.
Defined.

Lemma proxied_request_follows_no_redirect_witness :
  exists log conn,
    _request Sample.node (Positional (UriString "http://x/"))
      (Options.spread (Options.of_maxRedirects (Number.of_nat 5))
         (Options.of_proxy (Ex.proxy_with None None))) = (log, inr conn)
    /\ via conn = Proxied
    /\ snd (settle Sample.node conn [Answer Ex.ok; Answer (Ex.moved 302 "/b"); Answer Ex.ok])
       = Response (incoming (Ex.moved 302 "/b"))
    /\ requests (fst (settle Sample.node conn
                        [Answer Ex.ok; Answer (Ex.moved 302 "/b"); Answer Ex.ok])) = [].
Proof.
  destruct (_request Sample.node (Positional (UriString "http://x/"))
              (Options.spread (Options.of_maxRedirects (Number.of_nat 5))
                 (Options.of_proxy (Ex.proxy_with None None)))) as [log [e|conn]] eqn:H.
  - vm_compute in H. discriminate H.
  - exists log, conn. split; [reflexivity|].
    assert (Hp : RequestOptions.proxy (descriptor conn) <> None).
    { vm_compute in H. injection H as _ <-. discriminate. }
    destruct (proxied_request_follows_no_redirect Sample.node _ _ _ _
                [Answer Ex.ok; Answer (Ex.moved 302 "/b"); Answer Ex.ok] H Hp)
      as (Hv & _ & _ & Hreq & _ & Hresp).
    split; [exact Hv|]. split; [|exact Hreq].
    apply (Hresp Ex.ok (Ex.moved 302 "/b") [Answer Ex.ok]). reflexivity.
Defined.

Lemma proxy_uri_carries_no_credentials_witness :
  Forall (fun args => con_headers args !! "Proxy-Authorization" = None /\ con_tls args = [])
    (connects (fst (_request Sample.node (Positional (UriString "https://t.example"))
                      (Options.of_proxy (ProxyUri (UriString "http://p.example:8080"))))))
  /\ requests (fst (_request Sample.node (Positional (UriString "https://t.example"))
                      (Options.of_proxy (ProxyUri (UriString "http://p.example:8080"))))) = [].
Proof.
  apply (proxy_uri_carries_no_credentials Sample.node
           (UriString "https://t.example") (UriString "http://p.example:8080")
           (Options.of_proxy (ProxyUri (UriString "http://p.example:8080")))
           _ (snd (_request Sample.node (Positional (UriString "https://t.example"))
                     (Options.of_proxy (ProxyUri (UriString "http://p.example:8080")))))).
  - reflexivity.
  - apply surjective_pairing.
Defined.

Lemma get_writes_no_body_witness :
  exists log conn ev,
    _request Sample.node (Positional (UriString "http://x/"))
      (Options.spread (Options.of_body (VString "hello")) (Options.of_method "Get"))
    = (log, inr conn)
    /\ log = [ev; ConnEnd None].
Proof.
  destruct (_request Sample.node (Positional (UriString "http://x/"))
              (Options.spread (Options.of_body (VString "hello")) (Options.of_method "Get")))
    as [log [e|conn]] eqn:H.
  - vm_compute in H. discriminate H.
  - destruct (get_writes_no_body Sample.node _ _ _ _ H) as (ev & Hlog & _).
    + intros m Hm. injection Hm as <-. right. reflexivity.
    + exists log, conn, ev. split; [reflexivity|exact Hlog].
Defined.

Lemma content_length_is_length_of_chunk_witness :
  In (ConnSetHeader "Content-Length" (HNumber 5)) (fst (writeBody Sample.node Ex.post_everything)).
Proof.
  apply (proj1 (content_length_is_length_of_chunk Sample.node Ex.post_everything)
           (VString "hello")).
  right. left. reflexivity.
Defined.

Lemma connect_request_carries_no_caller_header_witness :
  exists log conn,
    _request Sample.node (Positional (UriString "https://t.example"))
      (Options.spread (Options.of_headers Ex.x_a)
         (Options.of_proxy (Ex.proxy_with (Some "user") (Some "pass"))))
    = (log, inr conn)
    /\ Forall (fun args =>
                 con_headers args !! "X-A" = None
                 /\ con_headers args !! "host" = Some (HOne "t.example")
                 /\ con_headers args !! "User-Agent"
                    = Some (HOne (defaultUserAgent Sample.node)))
         (connects log)
    /\ List.length (connects log) = 1.
Proof.
  destruct (_request Sample.node (Positional (UriString "https://t.example"))
              (Options.spread (Options.of_headers Ex.x_a)
                 (Options.of_proxy (Ex.proxy_with (Some "user") (Some "pass")))))
    as [log [e|conn]] eqn:H.
  - vm_compute in H. discriminate H.
  - exists log, conn. split; [reflexivity|].
    assert (Hd : descriptor conn
                 = RequestOptions.mk "GET" Ex.x_a Ex.t_example
                     (Some (Proxy.mk Ex.p_example None (Some "user") (Some "pass")))
                     (Number.of_nat 0) None None None None None None
                     true false false None false None None
                 /\ List.length (connects log) = 1).
    { vm_compute in H. injection H as <- <-. split; reflexivity. }
    destruct Hd as [Hd Hlen]. split; [|exact Hlen].
    pose proof (connect_request_carries_no_caller_header Sample.node _ _ _ _ H) as Hcon.
    eapply Forall_impl; [exact Hcon|].
    intros args Hargs. cbn beta in Hargs. rewrite Hd in Hargs.
    repeat split; rewrite Hargs by discriminate; reflexivity.
Defined.


Lemma redirects_are_off_by_default_witness :
  exists log conn,
    _request Sample.node (Positional (UriString "http://x/")) Options.empty = (log, inr conn)
    /\ settle Sample.node conn [Answer (Ex.moved 302 "/b"); Answer Ex.ok]
       = ([], Response (incoming (Ex.moved 302 "/b"))).
Proof.
  destruct (_request Sample.node (Positional (UriString "http://x/")) Options.empty)
    as [log [e|conn]] eqn:H.
  - vm_compute in H. discriminate H.
  - exists log, conn. split; [reflexivity|].
    apply (redirects_are_off_by_default Sample.node _ _ _ _ _ _ H).
    + reflexivity.
    + discriminate.
    + vm_compute in H. injection H as _ <-. reflexivity.
Defined.
